(** * Delivery data to DICOM RT plan: a shallow embedding of [to_dicom.py]

    The development follows
    [pymedphys_deliverydata/dicom/to_dicom.py].  Floating point numbers are
    exact rationals ([Q]); Python exceptions are values of [exn]; numpy arrays
    that the caller can still see after a call live in a store indexed by
    locations, so that writes through an alias ([np.array(x, copy=False)])
    are visible in the model exactly where they are visible in Python. *)

From Stdlib Require Import QArith Qminmax Qabs Qround ZArith List String Lia.
From Stdlib Require Import DecimalString Sorted Permutation Lqa.
From stdpp Require Import base option list gmap.

Local Open Scope Q_scope.

(** ** Python exceptions and results *)

Inductive exn : Type :=
| ValueError (msg : string)
| IndexError (msg : string)
| AssertionError (msg : string)
| TypeError (msg : string).

Inductive result (A : Type) : Type :=
| Ok (a : A)
| Raise (e : exn).

Arguments Ok {A} a.
Arguments Raise {A} e.

#[global] Instance result_ret : MRet result := @Ok.

#[global] Instance result_bind : MBind result :=
  fun A B (f : A -> result B) (m : result A) =>
    match m with
    | Ok a => f a
    | Raise e => Raise e
    end.

#[global] Instance result_fmap : FMap result :=
  fun A B (f : A -> B) (m : result A) =>
    match m with
    | Ok a => Ok (f a)
    | Raise e => Raise e
    end.

(** Messages of the two [raise ValueError(...)] sites of
    [determine_fraction_group_number]. *)
Definition msg_not_found : string :=
  "A fraction group was not able to be found with the metersets and gantry angles defined by the tolerances provided. Please manually define the fraction group number."%string.

Definition msg_ambiguous : string :=
  "More than one fraction group was found that had metersets and gantry angles within the tolerances provided. Please manually define the fraction group number."%string.

(** Messages of the numpy failures that the code can reach. *)
Definition msg_zero_size_min : string :=
  "zero-size array to reduction operation minimum which has no identity"%string.

Definition msg_zero_size_max : string :=
  "zero-size array to reduction operation maximum which has no identity"%string.

Definition msg_broadcast : string :=
  "operands could not be broadcast together"%string.

Definition msg_bool_index : string :=
  "boolean index did not match indexed array along dimension 0"%string.

Definition msg_too_many_indices : string :=
  "too many indices for array"%string.

Definition msg_out_of_bounds : string :=
  "index is out of bounds"%string.

Definition msg_list_index : string :=
  "list index out of range"%string.


(** ** The numpy operations used by the module, on one-dimensional data *)

Definition Qltb (x y : Q) : bool := negb (Qle_bool y x).

(** [np.diff(a)]: forward differences, one element shorter than [a]. *)
Fixpoint np_diff (a : list Q) : list Q :=
  match a with
  | x :: t => match t with
              | y :: _ => (y - x) :: np_diff t
              | [] => []
              end
  | [] => []
  end.

(** [np.append(a, v)]. *)
Definition np_append (a : list Q) (v : Q) : list Q := a ++ [v].

(** [np.min(a)] and [np.max(a)]: undefined on an empty array. *)
Definition np_min (a : list Q) : result Q :=
  match a with
  | [] => Raise (ValueError msg_zero_size_min)
  | x :: t => Ok (fold_left Qmin t x)
  end.

Definition np_max (a : list Q) : result Q :=
  match a with
  | [] => Raise (ValueError msg_zero_size_max)
  | x :: t => Ok (fold_left Qmax t x)
  end.

Definition np_abs (a : list Q) : list Q := map Qabs a.

(** [x - y] on one-dimensional arrays, with numpy's broadcasting: equal
    lengths subtract pointwise, a length-one operand is stretched, anything
    else is an error. *)
Definition np_sub (x y : list Q) : result (list Q) :=
  if (length x =? length y)%nat then Ok (zip_with Qminus x y)
  else match x, y with
       | [a], _ => Ok (map (fun b => a - b) y)
       | _, [b] => Ok (map (fun a => a - b) x)
       | _, _ => Raise (ValueError msg_broadcast)
       end.

(** [a[mask] = v] for a boolean mask: the mask must have the length of [a]. *)
Definition mask_assign {X : Type} (a : list X) (mask : list bool) (v : X)
  : result (list X) :=
  if (length mask =? length a)%nat
  then Ok (zip_with (fun x (b : bool) => if b then v else x) a mask)
  else Raise (IndexError msg_bool_index).

(** [a[mask]] for a boolean mask. *)
Definition mask_select {X : Type} (a : list X) (mask : list bool)
  : result (list X) :=
  if (length mask =? length a)%nat
  then Ok (fst <$> filter (fun p => snd p = true) (zip a mask))
  else Raise (IndexError msg_bool_index).

(** [np.sum(mask)] of a boolean array. *)
Definition np_sum_bool (mask : list bool) : nat :=
  length (filter (fun b => b = true) mask).

(** Python's [sorted] on numbers (stable insertion from the right). *)
Fixpoint insert_sorted (x : Q) (l : list Q) : list Q :=
  match l with
  | [] => [x]
  | y :: t => if Qle_bool x y then x :: l else y :: insert_sorted x t
  end.

Definition sorted (l : list Q) : list Q := foldr insert_sorted [] l.

(** ** Two-dimensional indexing

    A two-dimensional array is the list of its rows.  The rows of a numpy
    array all have one length; the operations below take the rows one by
    one, and stand for numpy's on such rectangular data. *)

(** [m[:, j]] on an array of rows. *)
Definition np_col {X : Type} (j : nat) (m : list (list X)) : result (list X) :=
  mapM (fun row : list X =>
          match row !! j with
          | Some x => Ok x
          | None => Raise (IndexError msg_out_of_bounds)
          end) m.

(** [m[:, j] = v]. *)
Definition np_set_col {X : Type} (j : nat) (m : list (list X)) (v : list X)
  : result (list (list X)) :=
  if (length v =? length m)%nat
  then mapM (fun p : list X * X =>
               if (j <? length (fst p))%nat
               then Ok (<[j := snd p]> (fst p))
               else Raise (IndexError msg_out_of_bounds)) (zip m v)
  else Raise (ValueError msg_broadcast).

(** ** Arrays, references and the store *)

Definition loc : Type := positive.

(** What a caller can pass where numpy expects an array: a Python list (or
    tuple), from which [np.array] always builds a new array, or a reference
    to an existing numpy array. *)
Inductive array_like (A : Type) : Type :=
| PyList (a : A)
| NdArray (l : loc).

Arguments PyList {A} a.
Arguments NdArray {A} l.

(** An array object held by a local variable: a private array that nobody
    else can reach, or the caller's own array. *)
Inductive handle (A : Type) : Type :=
| Owned (a : A)
| Alias (l : loc).

Arguments Owned {A} a.
Arguments Alias {A} l.

Section Store.
Context {A : Type} `{Inhabited A}.

Definition contents (h : gmap loc A) (x : array_like A) : A :=
  match x with
  | PyList a => a
  | NdArray l => h !!! l
  end.

(** [np.array(x, copy=...)]. *)
Definition np_array (copy : bool) (h : gmap loc A) (x : array_like A)
  : handle A :=
  match x with
  | PyList a => Owned a
  | NdArray l => if copy then Owned (h !!! l) else Alias l
  end.

Definition read (h : gmap loc A) (r : handle A) : A :=
  match r with
  | Owned a => a
  | Alias l => h !!! l
  end.

(** An in-place write through a handle. *)
Definition write (h : gmap loc A) (r : handle A) (a : A)
  : gmap loc A * handle A :=
  match r with
  | Owned _ => (h, Owned a)
  | Alias l => (<[l := a]> h, Alias l)
  end.
End Store.

(** ** Text formats

    How numpy and Python print a float is outside the model: [str] is
    [astype(str)] on one number, [format_6f] is ['{0:.6f}'.format], and
    [empty_str i] is whatever entry [i] of
    [np.empty_like(angle).astype(str)] happens to hold. *)
Class Repr : Type := {
  str : Q -> string;
  format_6f : Q -> string;
  empty_str : nat -> string
}.

(** ** The coordinate conversions *)

Section Convert.
Context `{Repr}.

(** Lines 224-225: one control point of [mlc_dd2dcm]; axis 0 of
    [control_point] is the leaf, axis 1 the bank. *)
Definition mlc_control_point (control_point : list (list Q))
  : result (list Q) :=
  bank1 ← np_col 1 (rev control_point);
  bank0 ← np_col 0 (rev control_point);
  Ok (map Qopp bank1 ++ bank0).

(** Lines 219-228; [copy=False] keeps the caller's array, which is only
    read. *)
Definition mlc_dd2dcm (h : gmap loc (list (list (list Q))))
    (mlc : array_like (list (list (list Q))))
  : result (gmap loc (list (list (list Q))) * list (list string)) :=
  let mlc := np_array false h mlc in
  dicom_mlc_format ←
    mapM (fun control_point =>
            concatenated ← mlc_control_point control_point;
            Ok (map str concatenated)) (read h mlc);
  Ok (h, dicom_mlc_format).

(** Line 209: [jaw[:, 1] = -jaw[:, 1]]. *)
Definition negate_second (jaw : list (list Q)) : result (list (list Q)) :=
  c1 ← np_col 1 jaw;
  np_set_col 1 jaw (map Qopp c1).

(** Lines 211-213 on an array [s] of any element type: the result starts
    as [s], then column 1 receives column 0 of [s] and column 0 receives
    column 1 of [s]. *)
Definition swap_columns {X : Type} (s : list (list X))
  : result (list (list X)) :=
  c0 ← np_col 0 s;
  converted ← np_set_col 1 s c0;
  c1 ← np_col 1 s;
  np_set_col 0 converted c1.

(** Lines 207-216; [copy=True] makes the array private before line 209
    writes to it.  A Python list of no samples becomes a one-dimensional
    array, which [jaw[:, 1]] cannot index. *)
Definition jaw_dd2dcm (h : gmap loc (list (list Q)))
    (jaw : array_like (list (list Q)))
  : result (gmap loc (list (list Q)) * list (list string)) :=
  match jaw with
  | PyList [] => Raise (IndexError msg_too_many_indices)
  | _ =>
      let jaw := np_array true h jaw in
      negated ← negate_second (read h jaw);
      let '(h, jaw) := write h jaw negated in
      converted_jaw ← swap_columns (map (map str) (read h jaw));
      Ok (h, converted_jaw)
  end.


(** Lines 240-241 on one entry: a negative angle gets 360 added. *)
Definition normalize (a : Q) : Q := if Qltb a 0 then a + 360 else a.

(** Lines 231-245; [copy=False] keeps the caller's array, and lines
    240-241 write to it. *)
Definition angle_dd2dcm (h : gmap loc (list Q)) (angle : array_like (list Q))
  : result (gmap loc (list Q) * (list string * list string)) :=
  let diff := np_append (np_diff (contents h angle)) 0 in
  let movement := map empty_str (seq 0 (length (contents h angle))) in
  movement ← mask_assign movement (map (fun d => Qltb 0 d) diff) "CW"%string;
  movement ← mask_assign movement (map (fun d => Qltb d 0) diff) "CC"%string;
  movement ← mask_assign movement (map (fun d => Qeq_bool d 0) diff) "NONE"%string;
  let converted_angle := np_array false h angle in
  let '(h, converted_angle) :=
    write h converted_angle (map normalize (read h converted_angle)) in
  Ok (h, (map str (read h converted_angle), movement)).

(** Lines 248-252. *)
Definition gantry_tol_from_gantry_angles (gantry_angles : list Q) : result Q :=
  min_diff ← np_min (np_diff (sorted gantry_angles));
  np_min [min_diff / 2 - 0.1; 3].
End Convert.

(** ** Delivery data, the store, and the code outside this module *)

(** The arrays a caller may share with the module, by rank. *)
Record heap : Type := {
  arr1 : gmap loc (list Q);
  arr2 : gmap loc (list (list Q));
  arr3 : gmap loc (list (list (list Q)))
}.

Definition set_arr1 (h : heap) (m : gmap loc (list Q)) : heap :=
  {| arr1 := m; arr2 := arr2 h; arr3 := arr3 h |}.

Definition set_arr2 (h : heap) (m : gmap loc (list (list Q))) : heap :=
  {| arr1 := arr1 h; arr2 := m; arr3 := arr3 h |}.

Definition set_arr3 (h : heap) (m : gmap loc (list (list (list Q)))) : heap :=
  {| arr1 := arr1 h; arr2 := arr2 h; arr3 := m |}.

(** [DeliveryDataBase]: five index-aligned sequences. *)
Record DeliveryDataBase : Type := {
  monitor_units : array_like (list Q);
  mlc : array_like (list (list (list Q)));
  jaw : array_like (list (list Q));
  gantry : array_like (list Q);
  collimator : array_like (list Q)
}.

(** The dictionary built by [coordinate_convert_delivery_data]. *)
Record converted : Type := {
  c_monitor_units : array_like (list Q);
  c_mlc : list (list string);
  c_jaw : list (list string);
  c_gantry_angle : list string;
  c_gantry_movement : list string;
  c_collimator_angle : list string;
  c_collimator_movement : list string
}.

(** A Python value in the position of a fraction group number. *)
Inductive pyvalue : Type :=
| PyNone
| PyInt (n : Z)
| PyIntArray (ns : list Z).

(** What [get_metersets_from_delivery_data] is called with: the tuple
    returned by [get_all_masked_delivery_data], or the single object
    [DeliveryDataBase.empty()]. *)
Inductive masked_arg : Type :=
| AllMasked (l : list DeliveryDataBase)
| OneDelivery (d : DeliveryDataBase).

(** The functions imported from [pymedphys_base], [pymedphys_dicom.rtplan]
    and [..utilities], and the attributes read from the DICOM dataset.  They
    may read the caller's arrays but do not write them; a function that
    updates a dataset in place returns the updated dataset. *)
Class Externals : Type := {
  Dataset : Type;
  Beam : Type;
  ControlPoint : Type;
  FractionGroupNumbers : Dataset -> list Z;
  BeamSequence : Dataset -> list Beam;
  ControlPointSequence : Beam -> list ControlPoint;
  DeliveryDataBase_empty : DeliveryDataBase;
  get_gantry_angles_from_dicom : Dataset -> result (list Q);
  build_control_points :
    heap -> ControlPoint -> ControlPoint -> converted -> result (list ControlPoint);
  replace_fraction_group : Dataset -> string -> nat -> nat -> result Dataset;
  replace_beam_sequence : Dataset -> list ControlPoint -> nat -> result Dataset;
  restore_trailing_zeros : Dataset -> result Dataset;
  merge_beam_sequences : list Dataset -> result Dataset;
  get_fraction_group_index : Dataset -> pyvalue -> result nat;
  convert_to_one_fraction_group : Dataset -> pyvalue -> result Dataset;
  get_fraction_group_beam_sequence_and_meterset :
    Dataset -> pyvalue -> result (list Beam * list Q);
  filter_out_irrelevant_control_points :
    heap -> DeliveryDataBase -> result DeliveryDataBase;
  get_all_masked_delivery_data :
    heap -> DeliveryDataBase -> list Q -> Q -> bool -> result (list DeliveryDataBase);
  get_metersets_from_delivery_data : heap -> masked_arg -> result (list Q)
}.

(** [l[i]] and [l[-1]] on a Python sequence. *)
Definition py_index {X : Type} (l : list X) (i : nat) : result X :=
  match l !! i with
  | Some x => Ok x
  | None => Raise (IndexError msg_list_index)
  end.

Definition py_last {X : Type} (l : list X) : result X :=
  match last l with
  | Some x => Ok x
  | None => Raise (IndexError msg_list_index)
  end.

Section Pipeline.
Context `{Repr} `{Externals}.

(** Lines 188-204. *)
Definition coordinate_convert_delivery_data (h : heap)
    (delivery_data : DeliveryDataBase) : result (heap * converted) :=
  let monitor_units := monitor_units delivery_data in
  '(m3, mlc) ← mlc_dd2dcm (arr3 h) (mlc delivery_data);
  let h := set_arr3 h m3 in
  '(m2, jaw) ← jaw_dd2dcm (arr2 h) (jaw delivery_data);
  let h := set_arr2 h m2 in
  '(m1, (gantry_angle, gantry_movement)) ←
    angle_dd2dcm (arr1 h) (gantry delivery_data);
  let h := set_arr1 h m1 in
  '(m1, (collimator_angle, collimator_movement)) ←
    angle_dd2dcm (arr1 h) (collimator delivery_data);
  let h := set_arr1 h m1 in
  Ok (h, {| c_monitor_units := monitor_units;
            c_mlc := mlc;
            c_jaw := jaw;
            c_gantry_angle := gantry_angle;
            c_gantry_movement := gantry_movement;
            c_collimator_angle := collimator_angle;
            c_collimator_movement := collimator_movement |}).

(** Lines 164-185; [deepcopy] is the identity on values. *)
Definition delivery_data_to_dicom_single_beam (h : heap)
    (delivery_data : DeliveryDataBase) (dicom_template : Dataset)
    (beam_index fraction_group_index : nat) : result (heap * Dataset) :=
  let created_dicom := dicom_template in
  '(h, data_converted) ← coordinate_convert_delivery_data h delivery_data;
  beam ← py_index (BeamSequence created_dicom) beam_index;
  let cp_sequence := ControlPointSequence beam in
  initial_cp ← py_index cp_sequence 0;
  subsequent_cp ← py_last cp_sequence;
  all_control_points ←
    build_control_points h initial_cp subsequent_cp data_converted;
  last_mu ← py_last (contents (arr1 h) (c_monitor_units data_converted));
  let beam_meterset := format_6f last_mu in
  created_dicom ←
    replace_fraction_group created_dicom beam_meterset beam_index
      fraction_group_index;
  created_dicom ←
    replace_beam_sequence created_dicom all_control_points beam_index;
  created_dicom ← restore_trailing_zeros created_dicom;
  Ok (h, created_dicom).

(** Lines 73-77: the loop over [enumerate(all_masked_delivery_data)]. *)
Fixpoint single_beam_loop (h : heap) (single_fraction_group_template : Dataset)
    (fraction_group_index beam_index : nat)
    (all_masked_delivery_data : list DeliveryDataBase)
  : result (heap * list Dataset) :=
  match all_masked_delivery_data with
  | [] => Ok (h, [])
  | masked_delivery_data :: rest =>
      '(h, d) ← delivery_data_to_dicom_single_beam h masked_delivery_data
                  single_fraction_group_template beam_index
                  fraction_group_index;
      '(h, ds) ← single_beam_loop h single_fraction_group_template
                   fraction_group_index (S beam_index) rest;
      Ok (h, d :: ds)
  end.

(** Lines 52-79.  The test [if fraction_group_number is None: pass] has an
    empty body, so the argument reaches the calls below as it came. *)
Definition delivery_data_to_dicom (h : heap) (delivery_data : DeliveryDataBase)
    (dicom_template : Dataset) (fraction_group_number : pyvalue)
  : result (heap * Dataset) :=
  single_fraction_group_template ←
    convert_to_one_fraction_group dicom_template fraction_group_number;
  delivery_data ← filter_out_irrelevant_control_points h delivery_data;
  template_gantry_angles ←
    get_gantry_angles_from_dicom single_fraction_group_template;
  gantry_tol ← gantry_tol_from_gantry_angles template_gantry_angles;
  all_masked_delivery_data ←
    get_all_masked_delivery_data h delivery_data template_gantry_angles
      gantry_tol false;
  fraction_group_index ←
    get_fraction_group_index single_fraction_group_template
      fraction_group_number;
  '(h, single_beam_dicoms) ←
    single_beam_loop h single_fraction_group_template fraction_group_index
      0%nat all_masked_delivery_data;
  merged ← merge_beam_sequences single_beam_dicoms;
  Ok (h, merged).

(** Lines 121-125: the [try] around the masking of one candidate. *)
Definition masked_or_empty (h : heap) (delivery_data : DeliveryDataBase)
    (gantry_angles : list Q) (gantry_tol : Q) : result masked_arg :=
  match get_all_masked_delivery_data h delivery_data gantry_angles
          gantry_tol true with
  | Ok masked => Ok (AllMasked masked)
  | Raise (AssertionError _) => Ok (OneDelivery DeliveryDataBase_empty)
  | Raise e => Raise e
  end.

(** Lines 139-140. *)
Definition maximum_deviation (dicom_metersets delivery_data_metersets : list Q)
  : result Q :=
  d ← np_sub dicom_metersets delivery_data_metersets;
  np_max (np_abs d).

(** Lines 94-142, for a template with several fraction groups. *)
Definition maximum_deviations (h : heap) (delivery_data : DeliveryDataBase)
    (dicom_template : Dataset) (gantry_tol : option Q)
    (fraction_group_numbers : list Z) : result (list Q) :=
  dicom_metersets_by_fraction_group ←
    mapM (fun fraction_group_number =>
            snd <$> get_fraction_group_beam_sequence_and_meterset
                      dicom_template (PyInt fraction_group_number))
         fraction_group_numbers;
  split_by_fraction_group ←
    mapM (fun fraction_group_number =>
            convert_to_one_fraction_group dicom_template
              (PyInt fraction_group_number))
         fraction_group_numbers;
  gantry_angles_by_fraction_group ←
    mapM get_gantry_angles_from_dicom split_by_fraction_group;
  gantry_tolerances ←
    mapM (fun gantry_angles =>
            match gantry_tol with
            | None => gantry_tol_from_gantry_angles gantry_angles
            | Some tol => Ok tol
            end)
         gantry_angles_by_fraction_group;
  masked_delivery_data_by_fraction_group ←
    mapM (fun p : list Q * Q =>
            masked_or_empty h delivery_data (fst p) (snd p))
         (zip gantry_angles_by_fraction_group gantry_tolerances);
  deliver_data_metersets_by_fraction_group ←
    mapM (get_metersets_from_delivery_data h)
         masked_delivery_data_by_fraction_group;
  mapM (fun p : list Q * list Q => maximum_deviation (fst p) (snd p))
       (zip dicom_metersets_by_fraction_group
            deliver_data_metersets_by_fraction_group).

(** Lines 144-161. *)
Definition select_within_tolerance (fraction_group_numbers : list Z)
    (maximum_deviations : list Q) (meterset_tol : Q) : result pyvalue :=
  let deviations_within_tol :=
    map (fun d => Qle_bool d meterset_tol) maximum_deviations in
  if (np_sum_bool deviations_within_tol <? 1)%nat
  then Raise (ValueError msg_not_found)
  else if (1 <? np_sum_bool deviations_within_tol)%nat
  then Raise (ValueError msg_ambiguous)
  else
    fraction_group_number ←
      mask_select fraction_group_numbers deviations_within_tol;
    Ok (PyIntArray fraction_group_number).

(** Lines 82-161. *)
Definition determine_fraction_group_number (h : heap)
    (delivery_data : DeliveryDataBase) (dicom_template : Dataset)
    (gantry_tol : option Q) (meterset_tol : Q) : result pyvalue :=
  match FractionGroupNumbers dicom_template with
  | [n] => Ok (PyInt n)
  | fraction_group_numbers =>
      deviations ←
        maximum_deviations h delivery_data dicom_template gantry_tol
          fraction_group_numbers;
      select_within_tolerance fraction_group_numbers deviations meterset_tol
  end.
End Pipeline.

(** ** A plan document and delivery utilities to run the code on

    The imported functions are not part of this module; to evaluate the
    module on concrete inputs they are given here the behaviour that the
    specification describes. *)

Module Plan.

(** Modelled from the spec: "formatted as fixed-point decimal strings (6
    decimal places for meterset ...)"; the printing of Python and numpy is
    missing, this prints [q] with [places] decimals, rounding half up. *)
Definition fixed_point (places : nat) (q : Q) : string :=
  let unit := (10 ^ Z.of_nat places)%Z in
  let scaled := Qfloor (q * inject_Z unit + 0.5) in
  let magnitude := Z.abs scaled in
  let whole := NilZero.string_of_int (Z.to_int (magnitude / unit)) in
  let part := NilZero.string_of_int (Z.to_int (unit + magnitude mod unit)) in
  ((if (scaled <? 0)%Z then "-" else EmptyString) ++ whole ++ "."
     ++ String.substring 1 places part)%string.

#[export] Instance repr : Repr :=
  {| str := fixed_point 6;
     format_6f := fixed_point 6;
     empty_str := fun _ => "0.000000"%string |}.

(** Modelled from the spec: section 3, "each [ControlPoint] carrying
    cumulative meterset, gantry angle, gantry rotation direction flag,
    collimator angle, collimator rotation direction flag, MLC positions,
    jaw positions"; the DICOM dataset type is missing. *)
Record control_point : Type := {
  cp_meterset : string;
  cp_gantry_angle : string;
  cp_gantry_direction : string;
  cp_collimator_angle : string;
  cp_collimator_direction : string;
  cp_mlc : list string;
  cp_jaw : list string
}.

(** Modelled from the spec: section 3, a beam with its control point
    sequence, and the per-beam target meterset that its fraction group
    records for it. *)
Record beam : Type := {
  b_gantry_angle : Q;
  b_target_meterset : Q;
  b_meterset_text : string;
  b_control_points : list control_point
}.

(** Modelled from the spec: section 3, "each [FractionGroup] has a unique
    [FractionGroupNumber], a per-beam target meterset, and references into
    a [Beam] list"; here a group holds its beams. *)
Record fraction_group : Type := {
  fg_number : Z;
  fg_beams : list beam
}.

Definition dataset : Type := list fraction_group.

(** Modelled from the spec: the beam list of the document, in the order of
    its fraction groups; the [BeamSequence] attribute is missing. *)
Definition beams_of (d : dataset) : list beam := concat (map fg_beams d).

(** The position of the first group with number [n]. *)
Fixpoint group_index (d : dataset) (n : Z) : option nat :=
  match d with
  | [] => None
  | g :: t => if (fg_number g =? n)%Z then Some 0%nat
              else S <$> group_index t n
  end.

Definition msg_not_in_list : string := "value is not in list"%string.

(** Modelled from the spec: section 7, "beam/fraction-group index out of
    range ... always fatal"; [get_fraction_group_index] is missing.  A
    group is found by its number: [None] and arrays are the number of no
    group. *)
Definition fraction_group_index (d : dataset) (v : pyvalue) : result nat :=
  match v with
  | PyInt n => match group_index d n with
               | Some i => Ok i
               | None => Raise (ValueError msg_not_in_list)
               end
  | _ => Raise (ValueError msg_not_in_list)
  end.

(** Modelled from the spec: section 4.3, "extract its per-beam template
    gantry angles and per-beam target metersets";
    [get_fraction_group_beam_sequence_and_meterset] is missing. *)
Definition beam_sequence_and_meterset (d : dataset) (v : pyvalue)
  : result (list beam * list Q) :=
  i ← fraction_group_index d v;
  g ← py_index d i;
  Ok (fg_beams g, map b_target_meterset (fg_beams g)).

(** Modelled from the spec: the template restricted to one fraction group;
    [convert_to_one_fraction_group] is missing. *)
Definition to_one_fraction_group (d : dataset) (v : pyvalue) : result dataset :=
  i ← fraction_group_index d v;
  g ← py_index d i;
  Ok [g].

(** Modelled from the spec: section 4.3, the per-beam template gantry
    angles; [get_gantry_angles_from_dicom] is missing. *)
Definition gantry_angles (d : dataset) : result (list Q) :=
  Ok (map b_gantry_angle (beams_of d)).

(** The entries of [l] that the mask selects. *)
Definition keep {X : Type} (mask : list bool) (l : list X) : list X :=
  fst <$> filter (fun p => snd p = true) (zip l mask).

(** Modelled from the spec: section 4.2, [maskForBeam]: "selects all
    sample indices whose gantry angle lies within [tol] of [targetAngle];
    fails with a 'no matching samples' condition if the resulting subset
    is empty"; the masking utilities are missing. *)
Definition mask_for_beam (h : heap) (dd : DeliveryDataBase)
    (target_angle tol : Q) : result DeliveryDataBase :=
  let mask :=
    map (fun g => Qle_bool (Qabs (g - target_angle)) tol)
        (contents (arr1 h) (gantry dd)) in
  if (np_sum_bool mask <? 1)%nat
  then Raise (AssertionError "no matching samples"%string)
  else Ok {| monitor_units := PyList (keep mask (contents (arr1 h) (monitor_units dd)));
             mlc := PyList (keep mask (contents (arr3 h) (mlc dd)));
             jaw := PyList (keep mask (contents (arr2 h) (jaw dd)));
             gantry := PyList (keep mask (contents (arr1 h) (gantry dd)));
             collimator := PyList (keep mask (contents (arr1 h) (collimator dd))) |}.

(** Modelled from the spec: section 4.3, "mask the full delivery stream per
    beam"; [get_all_masked_delivery_data] is missing.  One masked subset
    per template angle, failing as soon as one of them is empty. *)
Definition all_masked (h : heap) (dd : DeliveryDataBase)
    (angles : list Q) (tol : Q) (quiet : bool)
  : result (list DeliveryDataBase) :=
  mapM (fun angle => mask_for_beam h dd angle tol) angles.

(** Modelled from the spec: section 4.3, "compute per-beam delivered
    meterset as the final cumulative monitor-unit value within each beam's
    masked subset", and "on masking failure, treat the candidate's
    masked-data-derived metersets as entirely absent";
    [get_metersets_from_delivery_data] is missing. *)
Definition metersets (h : heap) (arg : masked_arg) : result (list Q) :=
  match arg with
  | AllMasked l =>
      mapM (fun dd => py_last (contents (arr1 h) (monitor_units dd))) l
  | OneDelivery _ => Ok []
  end.

(** Modelled from the spec: [DeliveryDataBase.empty()] is missing; a
    stream of length zero. *)
Definition empty : DeliveryDataBase :=
  {| monitor_units := PyList []; mlc := PyList []; jaw := PyList [];
     gantry := PyList []; collimator := PyList [] |}.

(** Modelled from the spec: section 4.4, "each subsequent synthesized
    point carries the converted per-sample MLC, jaw, gantry angle +
    direction, collimator angle + direction, and cumulative meterset taken
    directly from the masked subset, in original sample order";
    [build_control_points] is missing. *)
Definition control_points (h : heap) (initial final : control_point)
    (c : converted) : result (list control_point) :=
  Ok (imap (fun i mu =>
              {| cp_meterset := format_6f mu;
                 cp_gantry_angle := default EmptyString (c_gantry_angle c !! i);
                 cp_gantry_direction := default EmptyString (c_gantry_movement c !! i);
                 cp_collimator_angle := default EmptyString (c_collimator_angle c !! i);
                 cp_collimator_direction :=
                   default EmptyString (c_collimator_movement c !! i);
                 cp_mlc := default [] (c_mlc c !! i);
                 cp_jaw := default [] (c_jaw c !! i) |})
            (contents (arr1 h) (c_monitor_units c))).

(** The group [g] with [f] applied to its beam [beam_index]. *)
Definition update_beam (f : beam -> beam) (beam_index : nat) (g : fraction_group)
  : fraction_group :=
  {| fg_number := fg_number g;
     fg_beams := alter f beam_index (fg_beams g) |}.

(** Modelled from the spec: section 4.5, "replacing exactly one beam's
    control points and one fraction group's meterset entry";
    [replace_fraction_group] is missing. *)
Definition with_meterset (d : dataset) (text : string)
    (beam_index fraction_group_index : nat) : result dataset :=
  g ← py_index d fraction_group_index;
  _ ← py_index (fg_beams g) beam_index;
  Ok (alter (update_beam
               (fun b => {| b_gantry_angle := b_gantry_angle b;
                            b_target_meterset := b_target_meterset b;
                            b_meterset_text := text;
                            b_control_points := b_control_points b |})
               beam_index) fraction_group_index d).

(** Modelled from the spec: section 4.5, "replacing exactly one beam's
    control points"; [replace_beam_sequence] is missing. *)
Definition with_control_points (d : dataset) (cps : list control_point)
    (beam_index : nat) : result dataset :=
  g ← py_index d 0;
  _ ← py_index (fg_beams g) beam_index;
  Ok (alter (update_beam
               (fun b => {| b_gantry_angle := b_gantry_angle b;
                            b_target_meterset := b_target_meterset b;
                            b_meterset_text := b_meterset_text b;
                            b_control_points := cps |})
               beam_index) 0%nat d).

(** Modelled from the spec: section 4.5, "a single document whose beam
    sequence is the union of all replaced beams, preserving original beam
    ordering"; [merge_beam_sequences] is missing.  Fragment [i] gives beam
    [i]. *)
Definition merged (fragments : list dataset) : result dataset :=
  first ← py_index fragments 0;
  g ← py_index first 0;
  replaced ← mapM (fun p : nat * dataset => py_index (beams_of (snd p)) (fst p))
                  (imap pair fragments);
  Ok [ {| fg_number := fg_number g; fg_beams := replaced |} ].

(** Modelled from the spec: the imported functions, as given above;
    [filter_out_irrelevant_control_points] keeps a stream that, by the
    spec's section 1, arrives cleaned, and [restore_trailing_zeros] has
    nothing to restore on strings printed with six decimals. *)
#[export] Instance externals : Externals :=
  {| Dataset := dataset;
     Beam := beam;
     ControlPoint := control_point;
     FractionGroupNumbers := map fg_number;
     BeamSequence := beams_of;
     ControlPointSequence := b_control_points;
     DeliveryDataBase_empty := empty;
     get_gantry_angles_from_dicom := gantry_angles;
     build_control_points := control_points;
     replace_fraction_group := with_meterset;
     replace_beam_sequence := with_control_points;
     restore_trailing_zeros := Ok;
     merge_beam_sequences := merged;
     get_fraction_group_index := fraction_group_index;
     convert_to_one_fraction_group := to_one_fraction_group;
     get_fraction_group_beam_sequence_and_meterset := beam_sequence_and_meterset;
     filter_out_irrelevant_control_points := fun _ dd => Ok dd;
     get_all_masked_delivery_data := all_masked;
     get_metersets_from_delivery_data := metersets |}.

Definition empty_heap : heap := {| arr1 := ∅; arr2 := ∅; arr3 := ∅ |}.

Definition plain_control_point (mu angle : string) : control_point :=
  {| cp_meterset := mu; cp_gantry_angle := angle;
     cp_gantry_direction := "NONE"; cp_collimator_angle := "0.000000";
     cp_collimator_direction := "NONE"; cp_mlc := []; cp_jaw := [] |}.

Definition plain_beam (angle target : Q) : beam :=
  {| b_gantry_angle := angle;
     b_target_meterset := target;
     b_meterset_text := fixed_point 6 target;
     b_control_points :=
       [plain_control_point "0.000000" (fixed_point 6 angle);
        plain_control_point (fixed_point 6 target) (fixed_point 6 angle)] |}.

(** A delivery of two beams, at gantry -120 and -30 degrees, ending at
    250.3 and 80.2 monitor units. *)
Definition delivered : DeliveryDataBase :=
  {| monitor_units := PyList [0; 250.3; 0; 80.2];
     mlc := PyList [[[1; 2]; [3; 4]]; [[1; 2]; [3; 4]];
                    [[5; 6]; [7; 8]]; [[5; 6]; [7; 8]]];
     jaw := PyList [[10; 20]; [10; 20]; [30; 40]; [30; 40]];
     gantry := PyList [-120; -120; -30; -30];
     collimator := PyList [0; 0; -45; -45] |}.

(** Two fraction groups on separate gantry angles: the delivery is that
    of group 2, and no sample lies near the angles of group 1. *)
Definition separated_template : dataset :=
  [ {| fg_number := 1; fg_beams := [plain_beam 0 100; plain_beam 90 120] |};
    {| fg_number := 2; fg_beams := [plain_beam (-120) 250; plain_beam (-30) 80] |} ].

(** Two fraction groups on the same gantry angles, told apart by their
    metersets only. *)
Definition overlapping_template : dataset :=
  [ {| fg_number := 1; fg_beams := [plain_beam (-120) 100; plain_beam (-30) 120] |};
    {| fg_number := 2; fg_beams := [plain_beam (-120) 250; plain_beam (-30) 80] |} ].

Definition single_template : dataset :=
  [ {| fg_number := 2; fg_beams := [plain_beam (-120) 250; plain_beam (-30) 80] |} ].

End Plan.

(** ** Notions used in the statements *)

(** [d] is the least gap between neighbours of the sorted angles. *)
Definition minimal_adjacent_spacing (gantry_angles : list Q) (d : Q) : Prop :=
  let s := sorted gantry_angles in
  (exists i x y, s !! i = Some x /\ s !! S i = Some y /\ d == y - x) /\
  (forall i x y, s !! i = Some x -> s !! S i = Some y -> d <= y - x).

(** The rotation direction that belongs to a forward difference. *)
Definition direction (d : Q) : string :=
  if Qltb 0 d then "CW"%string
  else if Qltb d 0 then "CC"%string
  else "NONE"%string.

(** One jaw sample, and one sample of an MLC array whose bank A is column 0
    and whose bank B is column 1, one row per leaf. *)
Definition row2 {X : Type} (p : X * X) : list X := [fst p; snd p].


(** The numbers of the candidates whose maximum deviation is within the
    meterset tolerance. *)
Definition within_tolerance (fraction_group_numbers : list Z)
    (deviations : list Q) (meterset_tol : Q) : list Z :=
  fst <$> filter (fun p : Z * Q => Qle_bool (snd p) meterset_tol = true)
                 (zip fraction_group_numbers deviations).

(** * Properties *)

(** ** Results and [mapM] *)

Lemma bind_Ok {A B : Type} (f : A -> result B) (a : A) : Ok a ≫= f = f a.
Proof. reflexivity. Qed.

Lemma bind_Raise {A B : Type} (f : A -> result B) (e : exn) :
  Raise e ≫= f = Raise e.
Proof. reflexivity. Qed.

Lemma bind_Ok_inv {A B : Type} (f : A -> result B) (m : result A) (b : B) :
  m ≫= f = Ok b -> exists a, m = Ok a /\ f a = Ok b.
Proof. destruct m as [a|e]; simpl; [eauto | discriminate]. Qed.

Lemma mapM_cons {A B : Type} (f : A -> result B) (x : A) (l : list A) :
  mapM f (x :: l) = (y ← f x; k ← mapM f l; Ok (y :: k)).
Proof. reflexivity. Qed.

Lemma mapM_Ok_length {A B : Type} (f : A -> result B) (l : list A) (r : list B) :
  mapM f l = Ok r -> length r = length l.
Proof.
  revert r. induction l as [|x l IH]; intros r Hr.
  - inversion Hr. reflexivity.
  - rewrite mapM_cons in Hr.
    apply bind_Ok_inv in Hr as (y & _ & Hr).
    apply bind_Ok_inv in Hr as (k & Hk & Hr).
    inversion Hr; subst. simpl. f_equal. apply IH, Hk.
Qed.

Lemma mapM_Ok_lookup {A B : Type} (f : A -> result B) (l : list A) (r : list B)
    (i : nat) (x : A) :
  mapM f l = Ok r -> l !! i = Some x -> exists y, r !! i = Some y /\ f x = Ok y.
Proof.
  revert r i. induction l as [|x0 l IH]; intros r i Hr Hi; [discriminate|].
  rewrite mapM_cons in Hr.
  apply bind_Ok_inv in Hr as (y & Hy & Hr).
  apply bind_Ok_inv in Hr as (k & Hk & Hr).
  inversion Hr; subst. destruct i as [|i]; simpl in *.
  - inversion Hi; subst. eauto.
  - eapply IH; eauto.
Qed.

Lemma mapM_Raise_lookup {A B : Type} (f : A -> result B) (l : list A)
    (i : nat) (x : A) (e : exn) :
  l !! i = Some x -> f x = Raise e -> exists e', mapM f l = Raise e'.
Proof.
  intros Hi Hx. destruct (mapM f l) as [r|e'] eqn:Hr; [|eauto].
  destruct (mapM_Ok_lookup f l r i x Hr Hi) as (y & _ & Hy). congruence.
Qed.


(** ** Comparisons on rationals *)

Lemma Qltb_lt (x y : Q) : Qltb x y = true <-> x < y.
Proof.
  unfold Qltb. rewrite negb_true_iff. split.
  - intros Hb. apply Qnot_le_lt. intros Hle.
    apply Qle_bool_iff in Hle. congruence.
  - intros Hlt. destruct (Qle_bool y x) eqn:Hb; [|reflexivity].
    apply Qle_bool_iff in Hb. exfalso. exact (Qlt_not_le _ _ Hlt Hb).
Qed.

Lemma Qltb_ge (x y : Q) : Qltb x y = false <-> y <= x.
Proof.
  unfold Qltb. rewrite negb_false_iff. apply Qle_bool_iff.
Qed.

(** ** [sorted] returns its argument in ascending order *)

Lemma length_insert_sorted (x : Q) (l : list Q) :
  length (insert_sorted x l) = S (length l).
Proof.
  induction l as [|y t IH]; simpl; [reflexivity|].
  destruct (Qle_bool x y); simpl; [reflexivity | now rewrite IH].
Qed.

Lemma length_sorted (l : list Q) : length (sorted l) = length l.
Proof.
  induction l as [|x l IH]; simpl; [reflexivity|].
  fold (sorted l). now rewrite length_insert_sorted, IH.
Qed.

Lemma insert_sorted_perm (x : Q) (l : list Q) :
  Permutation (x :: l) (insert_sorted x l).
Proof.
  induction l as [|y t IH]; simpl; [reflexivity|].
  destruct (Qle_bool x y); [reflexivity|].
  etransitivity; [apply perm_swap|]. now apply perm_skip.
Qed.

Lemma sorted_perm (l : list Q) : Permutation l (sorted l).
Proof.
  induction l as [|x l IH]; simpl; [reflexivity|]. fold (sorted l).
  etransitivity; [apply perm_skip, IH | apply insert_sorted_perm].
Qed.

Lemma insert_sorted_ascending (x : Q) (l : list Q) :
  Sorted Qle l -> Sorted Qle (insert_sorted x l).
Proof.
  induction l as [|y t IH]; intros Hs; simpl.
  - repeat constructor.
  - destruct (Qle_bool x y) eqn:Hxy.
    + constructor; [assumption|]. constructor. now apply Qle_bool_iff.
    + assert (Hyx : y <= x).
      { apply Qlt_le_weak, Qltb_lt. unfold Qltb. now rewrite Hxy. }
      inversion Hs as [|? ? Ht Hhd]; subst.
      constructor; [apply IH, Ht|].
      destruct t as [|z t']; simpl.
      * now constructor.
      * destruct (Qle_bool x z); constructor; [assumption|].
        now inversion Hhd.
Qed.

Lemma sorted_ascending (l : list Q) : Sorted Qle (sorted l).
Proof.
  induction l as [|x l IH]; simpl; [constructor|].
  fold (sorted l). now apply insert_sorted_ascending.
Qed.

(** ** Forward differences and minima *)

Lemma length_np_diff (a : list Q) : length (np_diff a) = pred (length a).
Proof.
  induction a as [|x t IH]; [reflexivity|].
  destruct t as [|y t']; [reflexivity|].
  change (np_diff (x :: y :: t')) with ((y - x) :: np_diff (y :: t')).
  simpl length in *. now rewrite IH.
Qed.

Lemma np_diff_lookup (a : list Q) (i : nat) (d : Q) :
  np_diff a !! i = Some d <->
  exists x y, a !! i = Some x /\ a !! S i = Some y /\ d = y - x.
Proof.
  revert i. induction a as [|x t IH]; intros i.
  - split; [discriminate | intros (? & ? & ? & _); discriminate].
  - destruct t as [|y t'].
    + split; [discriminate|]. intros (? & ? & _ & Hy & _). discriminate.
    + change (np_diff (x :: y :: t')) with ((y - x) :: np_diff (y :: t')).
      destruct i as [|i].
      * simpl. split.
        -- intros [= <-]. eauto.
        -- intros (? & ? & [= <-] & [= <-] & ->). reflexivity.
      * change (((y - x) :: np_diff (y :: t')) !! S i)
          with (np_diff (y :: t') !! i).
        rewrite IH. reflexivity.
Qed.

Lemma fold_Qmin_le_init (t : list Q) (x : Q) : fold_left Qmin t x <= x.
Proof.
  revert x. induction t as [|y t IH]; intros x; simpl; [apply Qle_refl|].
  eapply Qle_trans; [apply IH | apply Q.le_min_l].
Qed.

Lemma fold_Qmin_le_elem (t : list Q) (x y : Q) :
  In y t -> fold_left Qmin t x <= y.
Proof.
  revert x. induction t as [|z t IH]; intros x Hy; [destruct Hy|].
  destruct Hy as [Hy|Hy]; simpl.
  - subst. eapply Qle_trans; [apply fold_Qmin_le_init | apply Q.le_min_r].
  - now apply IH.
Qed.

Lemma fold_Qmin_attained (t : list Q) (x : Q) :
  exists e, In e (x :: t) /\ fold_left Qmin t x == e.
Proof.
  revert x. induction t as [|y t IH]; intros x; simpl.
  - exists x. split; [now left | reflexivity].
  - destruct (IH (Qmin x y)) as (e & [He|He] & Heq).
    + subst e. destruct (Q.min_spec x y) as [[_ Hm]|[_ Hm]].
      * exists x. split; [now left|]. now rewrite Heq.
      * exists y. split; [right; now left|]. now rewrite Heq.
    + exists e. split; [right; now right | assumption].
Qed.

Lemma np_min_spec (a : list Q) (m : Q) :
  np_min a = Ok m ->
  (forall y, In y a -> m <= y) /\ exists e, In e a /\ m == e.
Proof.
  destruct a as [|x t]; [discriminate|]. intros [= <-]. split.
  - intros y [<-|Hy]; [apply fold_Qmin_le_init | now apply fold_Qmin_le_elem].
  - apply fold_Qmin_attained.
Qed.

(** ** The gantry tolerance *)

(** C10: [gantry_tol_from_gantry_angles] raises numpy's empty-minimum error
    on every list of fewer than two angles, and returns a tolerance on every
    list of two or more. *)
Theorem gantry_tol_needs_two_angles (gantry_angles : list Q) :
  ((length gantry_angles < 2)%nat ->
   gantry_tol_from_gantry_angles gantry_angles
   = Raise (ValueError msg_zero_size_min)) /\
  ((2 <= length gantry_angles)%nat ->
   exists tol, gantry_tol_from_gantry_angles gantry_angles = Ok tol).
Proof.
  split.
  - destruct gantry_angles as [|x [|y l]]; simpl; intros Hlen;
      [reflexivity | reflexivity | lia].
  - intros Hlen. unfold gantry_tol_from_gantry_angles.
    pose proof (length_sorted gantry_angles) as Hs.
    destruct (sorted gantry_angles) as [|a [|b s]]; simpl in Hs; try lia.
    change (np_diff (a :: b :: s)) with ((b - a) :: np_diff (b :: s)).
    simpl. eauto.
Qed.

Lemma gantry_tol_needs_two_angles_witness :
  gantry_tol_from_gantry_angles [45] = Raise (ValueError msg_zero_size_min) /\
  exists tol, gantry_tol_from_gantry_angles [0; 90] = Ok tol.
Proof.
  split.
  - apply (gantry_tol_needs_two_angles [45]). simpl. lia.
  - apply (gantry_tol_needs_two_angles [0; 90]). simpl. lia.
Defined.

Lemma minimal_adjacent_spacing_min (gantry_angles : list Q) (d : Q) :
  minimal_adjacent_spacing gantry_angles d ->
  exists m, np_min (np_diff (sorted gantry_angles)) = Ok m /\ m == d.
Proof.
  intros [(i & x & y & Hx & Hy & Hd) Hleast].
  assert (Hi : np_diff (sorted gantry_angles) !! i = Some (y - x)).
  { apply np_diff_lookup. eauto. }
  destruct (np_min (np_diff (sorted gantry_angles))) as [m|e] eqn:Hm.
  - exists m. split; [reflexivity|].
    destruct (np_min_spec _ _ Hm) as [Hle (e & He & Hme)].
    apply Qle_antisym.
    + rewrite Hd. apply Hle. apply list_elem_of_In.
      eapply list_elem_of_lookup_2, Hi.
    + rewrite Hme. apply list_elem_of_In, list_elem_of_lookup in He.
      destruct He as (j & Hj). apply np_diff_lookup in Hj.
      destruct Hj as (x' & y' & Hx' & Hy' & ->). eapply Hleast; eauto.
  - destruct (np_diff (sorted gantry_angles)); [discriminate Hi | discriminate Hm].
Qed.

(** C4, as amended: when [d] is the least gap between neighbours of the
    sorted template angles, [gantry_tol_from_gantry_angles] returns
    [min(d/2 - 0.1, 3)], and that tolerance is non-negative exactly when
    [d >= 0.2]. *)
Theorem gantry_tol_value (gantry_angles : list Q) (d : Q) :
  minimal_adjacent_spacing gantry_angles d ->
  exists tol,
    gantry_tol_from_gantry_angles gantry_angles = Ok tol /\
    tol == Qmin (d / 2 - 0.1) 3 /\
    (0 <= tol <-> 0.2 <= d).
Proof.
  intros Hd. destruct (minimal_adjacent_spacing_min _ _ Hd) as (m & Hm & Hmd).
  unfold gantry_tol_from_gantry_angles. rewrite Hm. simpl.
  exists (Qmin (m / 2 - 0.1) 3).
  assert (Heq : Qmin (m / 2 - 0.1) 3 == Qmin (d / 2 - 0.1) 3).
  { apply Q.min_compat; [|reflexivity]. now rewrite Hmd. }
  split; [reflexivity|]. split; [exact Heq|].
  rewrite Heq.
  assert (Hhalf : d / 2 == d * 0.5).
  { unfold Qdiv. apply Qmult_comp; reflexivity. }
  destruct (Q.min_spec (d / 2 - 0.1) 3) as [[Hlt ->]|[Hle ->]];
    rewrite Hhalf in *; split; intros; lra.
Qed.

Lemma gantry_tol_value_witness :
  exists tol,
    gantry_tol_from_gantry_angles [90; 0; 180.5] = Ok tol /\
    tol == Qmin (90 / 2 - 0.1) 3 /\
    (0 <= tol <-> 0.2 <= 90).
Proof.
  apply (gantry_tol_value [90; 0; 180.5] 90).
  split.
  - exists 0%nat, 0, 90. repeat split; reflexivity.
  - intros [|[|[|i]]] x y Hx Hy; vm_compute in Hx, Hy;
      inversion Hx; inversion Hy; subst; vm_compute; discriminate.
Defined.

(** C4, the claim as written fails: the angles 0 and 0.1 are distinct, their
    spacing 0.1 is positive, and the tolerance returned is negative. *)
Lemma gantry_tol_negative_for_close_angles :
  minimal_adjacent_spacing [0; 0.1] 0.1 /\
  0 < 0.1 /\
  exists tol,
    gantry_tol_from_gantry_angles [0; 0.1] = Ok tol /\
    tol == Qmin (0.1 / 2 - 0.1) 3 /\
    tol < 0.
Proof.
  split; [|split].
  - split.
    + exists 0%nat, 0, 0.1. repeat split; reflexivity.
    + intros [|[|i]] x y Hx Hy; vm_compute in Hx, Hy;
        inversion Hx; inversion Hy; subst; vm_compute; discriminate.
  - reflexivity.
  - eexists. split; [reflexivity|]. split; [reflexivity|]. reflexivity.
Qed.

(** ** Angles *)

Lemma direction_passes (d : Q) (x : string) :
  (if Qeq_bool d 0 then "NONE"%string
   else if Qltb d 0 then "CC"%string
   else if Qltb 0 d then "CW"%string else x) = direction d.
Proof.
  unfold direction.
  destruct (Qeq_bool d 0) eqn:He.
  - apply Qeq_bool_iff in He.
    assert (H1 : Qltb 0 d = false) by (apply Qltb_ge; lra).
    assert (H2 : Qltb d 0 = false) by (apply Qltb_ge; lra).
    now rewrite H1, H2.
  - destruct (Qltb d 0) eqn:Hlt.
    + apply Qltb_lt in Hlt.
      assert (H1 : Qltb 0 d = false) by (apply Qltb_ge; lra).
      now rewrite H1.
    + destruct (Qltb 0 d) eqn:Hgt; [reflexivity|].
      apply Qltb_ge in Hlt, Hgt. exfalso.
      assert (Hd : d == 0) by lra.
      apply Qeq_bool_iff in Hd. congruence.
Qed.

Lemma three_passes (init : list string) (diff : list Q) :
  length diff = length init ->
  zip_with (fun x (b : bool) => if b then "NONE"%string else x)
    (zip_with (fun x (b : bool) => if b then "CC"%string else x)
       (zip_with (fun x (b : bool) => if b then "CW"%string else x)
          init (map (fun d => Qltb 0 d) diff))
       (map (fun d => Qltb d 0) diff))
    (map (fun d => Qeq_bool d 0) diff)
  = map direction diff.
Proof.
  revert diff. induction init as [|x init IH]; intros [|d diff] Hlen;
    simpl in *; try discriminate; [reflexivity|].
  f_equal; [|apply IH; lia].
  rewrite <- (direction_passes d x).
  destruct (Qeq_bool d 0), (Qltb d 0), (Qltb 0 d); reflexivity.
Qed.

Lemma length_diff_append (a : list Q) :
  a <> [] -> length (np_append (np_diff a) 0) = length a.
Proof.
  intros Ha. unfold np_append. rewrite length_app, length_np_diff.
  destruct a; [congruence | simpl; lia].
Qed.

Lemma mask_assign_Ok {X : Type} (a : list X) (mask : list bool) (v : X) :
  length mask = length a ->
  mask_assign a mask v
  = Ok (zip_with (fun x (b : bool) => if b then v else x) a mask).
Proof. intros Hlen. unfold mask_assign. now rewrite Hlen, Nat.eqb_refl. Qed.

(** The value of [angle_dd2dcm] on a non-empty sequence. *)
Lemma angle_dd2dcm_value `{Repr} (h : gmap loc (list Q))
    (angle : array_like (list Q)) :
  contents h angle <> [] ->
  angle_dd2dcm h angle
  = Ok (match angle with
        | PyList _ => h
        | NdArray l => <[l := map normalize (contents h angle)]> h
        end,
        (map str (map normalize (contents h angle)),
         map direction (np_append (np_diff (contents h angle)) 0))).
Proof.
  intros Ha. unfold angle_dd2dcm. cbv zeta.
  pose proof (length_diff_append _ Ha) as Hlen.
  set (a := contents h angle) in *.
  set (diff := np_append (np_diff a) 0) in *.
  rewrite mask_assign_Ok by (now rewrite !length_map, length_seq).
  rewrite bind_Ok.
  rewrite mask_assign_Ok
    by (now rewrite length_zip_with, !length_map, length_seq, Hlen, Nat.min_id).
  rewrite bind_Ok.
  rewrite mask_assign_Ok
    by (now rewrite !length_zip_with, !length_map, length_seq, Hlen, !Nat.min_id).
  rewrite bind_Ok.
  rewrite three_passes by (now rewrite length_map, length_seq).
  destruct angle as [xs|l]; simpl.
  - reflexivity.
  - now rewrite lookup_total_insert_eq.
Qed.

(** C5: on a non-empty angle sequence every sample that has a successor is
    tagged CW, CC or NONE by the sign of the difference to that successor,
    the last sample is tagged NONE, and the differences are those of the
    sequence as it was passed in, also when the call rewrites the caller's
    array with the normalised angles. *)
Theorem angle_dd2dcm_directions `{Repr} (h : gmap loc (list Q))
    (angle : array_like (list Q)) :
  contents h angle <> [] ->
  exists h' converted movement,
    angle_dd2dcm h angle = Ok (h', (converted, movement)) /\
    length movement = length (contents h angle) /\
    (forall i x y,
        contents h angle !! i = Some x ->
        contents h angle !! S i = Some y ->
        (0 < y - x -> movement !! i = Some "CW"%string) /\
        (y - x < 0 -> movement !! i = Some "CC"%string) /\
        (y - x == 0 -> movement !! i = Some "NONE"%string)) /\
    last movement = Some "NONE"%string /\
    converted = map str (map normalize (contents h angle)) /\
    (forall l, angle = NdArray l ->
               h' !! l = Some (map normalize (contents h angle))).
Proof.
  intros Ha. rewrite (angle_dd2dcm_value h angle Ha).
  eexists _, _, _. split; [reflexivity|].
  split; [now rewrite length_map, length_diff_append|].
  split; [|split; [|split]].
  - intros i x y Hx Hy.
    assert (Hi : map direction (np_append (np_diff (contents h angle)) 0) !! i
                 = Some (direction (y - x))).
    { change (map direction ?l) with (direction <$> l).
      rewrite list_lookup_fmap. unfold np_append.
      rewrite lookup_app_l.
      - replace (np_diff (contents h angle) !! i) with (Some (y - x));
          [reflexivity|].
        symmetry. apply np_diff_lookup. eauto.
      - rewrite length_np_diff. apply lookup_lt_Some in Hy. lia. }
    rewrite Hi. unfold direction. repeat split; intros Hd.
    + apply Qltb_lt in Hd. now rewrite Hd.
    + assert (H1 : Qltb 0 (y - x) = false) by (apply Qltb_ge; lra).
      apply Qltb_lt in Hd. now rewrite H1, Hd.
    + assert (H1 : Qltb 0 (y - x) = false) by (apply Qltb_ge; lra).
      assert (H2 : Qltb (y - x) 0 = false) by (apply Qltb_ge; lra).
      now rewrite H1, H2.
  - unfold np_append. rewrite map_app. simpl. apply last_snoc.
  - reflexivity.
  - intros l ->. apply lookup_insert_eq.
Qed.

Lemma angle_dd2dcm_directions_witness :
  exists h' converted movement,
    angle_dd2dcm (H := Plan.repr) ∅ (PyList [-10; 10; 10; 5])
    = Ok (h', (converted, movement)) /\
    movement = ["CW"; "NONE"; "CC"; "NONE"]%string /\
    converted = map (str (Repr := Plan.repr)) [350; 10; 10; 5].
Proof.
  destruct (angle_dd2dcm_directions (H := Plan.repr) ∅
              (PyList [-10; 10; 10; 5]))
    as (h' & converted & movement & Hrun & _ & _ & _ & Hc & _).
  - simpl. discriminate.
  - exists h', converted, movement. split; [exact Hrun|].
    split; [|exact Hc].
    vm_compute in Hrun. now inversion Hrun.
Defined.

Lemma map_normalize_twice (a : list Q) :
  Forall (fun x => -360 <= x) a ->
  map normalize (map normalize a) = map normalize a.
Proof.
  induction 1 as [|x a Hx _ IH]; [reflexivity|].
  simpl. rewrite IH. f_equal. unfold normalize.
  destruct (Qltb x 0) eqn:Hneg.
  - assert (Hb : Qltb (x + 360) 0 = false) by (apply Qltb_ge; lra).
    now rewrite Hb.
  - now rewrite Hneg.
Qed.

(** C9: on a non-empty sequence of angles in [-180, 180), [angle_dd2dcm]
    prints, and writes back when it was given an array, the sequence in
    which every non-negative angle [a] is [a] itself and every negative
    angle [a] is [a + 360]; and it is idempotent: called again on that
    sequence, as a list or as an array holding it, it prints the same angles
    and changes nothing. *)
Theorem angle_dd2dcm_round_trip `{Repr} (h : gmap loc (list Q))
    (angle : array_like (list Q)) :
  contents h angle <> [] ->
  Forall (fun a => -180 <= a /\ a < 180) (contents h angle) ->
  exists h' normalized movement,
    angle_dd2dcm h angle = Ok (h', (map str normalized, movement)) /\
    length normalized = length (contents h angle) /\
    (forall i a,
        contents h angle !! i = Some a ->
        (0 <= a -> normalized !! i = Some a) /\
        (a < 0 -> normalized !! i = Some (a + 360))) /\
    (forall l, angle = NdArray l -> h' !! l = Some normalized) /\
    (forall again,
        contents h' again = normalized ->
        exists movement',
          angle_dd2dcm h' again = Ok (h', (map str normalized, movement'))).
Proof.
  intros Hne Hall. rewrite (angle_dd2dcm_value h angle Hne).
  set (a := contents h angle) in *.
  set (h' := match angle with
             | PyList _ => h
             | NdArray l => <[l := map normalize a]> h
             end).
  assert (Hnorm : map normalize a <> []) by (destruct a; [congruence | discriminate]).
  exists h', (map normalize a), (map direction (np_append (np_diff a) 0)).
  split; [reflexivity|]. split; [apply length_map|].
  split; [|split].
  - intros i x Hx.
    assert (Hi : map normalize a !! i = Some (normalize x)).
    { change (map normalize a) with (normalize <$> a).
      now rewrite list_lookup_fmap, Hx. }
    rewrite Hi. unfold normalize. split; intros Hsign.
    + apply Qltb_ge in Hsign. now rewrite Hsign.
    + apply Qltb_lt in Hsign. now rewrite Hsign.
  - intros l Hl. subst h'. rewrite Hl. apply lookup_insert_eq.
  - intros again Hagain.
    rewrite angle_dd2dcm_value by (now rewrite Hagain).
    rewrite Hagain, map_normalize_twice.
    + eexists. f_equal. f_equal.
      destruct again as [xs|l']; [reflexivity|].
      apply insert_id. simpl in Hagain.
      rewrite lookup_total_alt in Hagain.
      destruct (h' !! l') as [v|]; simpl in Hagain; [now subst v|].
      now rewrite <- Hagain in Hnorm.
    + eapply Forall_impl; [exact Hall|]. intros x [Hlo _]. simpl. lra.
Qed.

Lemma angle_dd2dcm_round_trip_witness :
  exists h' movement movement',
    angle_dd2dcm (H := Plan.repr) {[ 1%positive := [-90; 45; -180] ]}
      (NdArray 1%positive)
    = Ok (h', (map (str (Repr := Plan.repr)) [270; 45; 180], movement)) /\
    h' !! 1%positive = Some [270; 45; 180] /\
    angle_dd2dcm (H := Plan.repr) h' (NdArray 1%positive)
    = Ok (h', (map (str (Repr := Plan.repr)) [270; 45; 180], movement')).
Proof.
  destruct (angle_dd2dcm_round_trip (H := Plan.repr)
              {[ 1%positive := [-90; 45; -180] ]} (NdArray 1%positive))
    as (h' & normalized & movement & Hrun & _ & _ & Hstore & Hagain).
  - simpl. rewrite lookup_total_singleton_eq. discriminate.
  - simpl. rewrite lookup_total_singleton_eq.
    repeat constructor; vm_compute; discriminate || reflexivity.
  - specialize (Hstore 1%positive eq_refl).
    assert (Hn : normalized = [270; 45; 180]).
    { rewrite angle_dd2dcm_value in Hrun
        by (simpl; rewrite lookup_total_singleton_eq; discriminate).
      inversion Hrun as [[Hh Hout Hmov]]. clear Hrun Hout Hmov. subst h'.
      rewrite lookup_insert_eq in Hstore. simpl in Hstore.
      rewrite lookup_total_singleton_eq in Hstore.
      inversion Hstore as [Hv]. reflexivity. }
    subst normalized.
    destruct (Hagain (NdArray 1%positive)) as (movement' & Hsecond).
    + simpl. now rewrite (lookup_total_correct _ _ _ Hstore).
    + exists h', movement, movement'. repeat split; assumption.
Defined.

(** On the empty sequence the first mask assignment fails: the differences
    padded with 0 have one entry, the tags none. *)
Lemma angle_dd2dcm_empty `{Repr} (h : gmap loc (list Q)) :
  angle_dd2dcm h (PyList []) = Raise (IndexError msg_bool_index).
Proof. reflexivity. Qed.

(** ** What the conversions do to the caller's arrays *)

Lemma mlc_dd2dcm_frame `{Repr} (h h' : gmap loc (list (list (list Q))))
    (mlc : array_like (list (list (list Q)))) (out : list (list string)) :
  mlc_dd2dcm h mlc = Ok (h', out) -> h' = h.
Proof.
  unfold mlc_dd2dcm. cbv zeta. intros Hrun.
  apply bind_Ok_inv in Hrun as (fmt & _ & Hrun). now inversion Hrun.
Qed.

Lemma jaw_dd2dcm_frame `{Repr} (h h' : gmap loc (list (list Q)))
    (jaw : array_like (list (list Q))) (out : list (list string)) :
  jaw_dd2dcm h jaw = Ok (h', out) -> h' = h.
Proof.
  unfold jaw_dd2dcm. intros Hrun.
  assert (Hcopy : forall r, r = np_array true h jaw ->
            (negated ← negate_second (read h r);
             let '(h0, jaw0) := write h r negated in
             converted_jaw ← swap_columns (map (map str) (read h0 jaw0));
             Ok (h0, converted_jaw)) = Ok (h', out) -> h' = h).
  { intros r Hr Hbody.
    apply bind_Ok_inv in Hbody as (negated & _ & Hbody).
    assert (Hown : exists a, r = Owned a).
    { subst r. destruct jaw; simpl; eauto. }
    destruct Hown as (a & ->). simpl in Hbody.
    apply bind_Ok_inv in Hbody as (c & _ & Hbody). now inversion Hbody. }
  destruct jaw as [[|row rows]|l]; [discriminate | |]; eapply Hcopy; eauto.
Qed.

Lemma angle_dd2dcm_frame_list `{Repr} (h h' : gmap loc (list Q))
    (a : list Q) (out : list string * list string) :
  angle_dd2dcm h (PyList a) = Ok (h', out) -> h' = h.
Proof.
  destruct a as [|x a].
  - discriminate.
  - rewrite angle_dd2dcm_value by discriminate. now intros [= <- _].
Qed.

(** C7, at an input where it fails: called on a numpy array that holds a
    negative angle, [angle_dd2dcm] leaves the caller's array changed, the
    entry -10 having become 350. *)
Theorem angle_dd2dcm_overwrites_caller_array `{Repr} :
  exists h' out,
    angle_dd2dcm {[ 1%positive := [-10; 10] ]} (NdArray 1%positive)
    = Ok (h', out) /\
    ({[ 1%positive := [-10; 10] ]} : gmap loc (list Q)) !! 1%positive
    = Some [-10; 10] /\
    h' !! 1%positive = Some [350; 10].
Proof.
  rewrite angle_dd2dcm_value
    by (simpl; rewrite lookup_total_singleton_eq; discriminate).
  eexists _, _. split; [reflexivity|]. split.
  - apply lookup_singleton_eq.
  - rewrite lookup_insert_eq. simpl. rewrite lookup_total_singleton_eq.
    reflexivity.
Qed.

(** ** Columns of arrays built row by row *)

Lemma np_col_map {X Y : Type} (j : nat) (g : Y -> list X) (f : Y -> X)
    (l : list Y) :
  (forall p, In p l -> g p !! j = Some (f p)) ->
  np_col j (map g l) = Ok (map f l).
Proof.
  intros Hg. unfold np_col. induction l as [|p l IH]; [reflexivity|].
  simpl map. rewrite mapM_cons, (Hg p (or_introl eq_refl)), bind_Ok.
  rewrite IH by (intros; apply Hg; now right). reflexivity.
Qed.

Lemma np_set_col_map {X Y : Type} (j : nat) (g : Y -> list X) (f : Y -> X)
    (l : list Y) :
  (forall p, In p l -> (j < length (g p))%nat) ->
  np_set_col j (map g l) (map f l)
  = Ok (map (fun p => <[j := f p]> (g p)) l).
Proof.
  intros Hg. unfold np_set_col. rewrite !length_map, Nat.eqb_refl.
  induction l as [|p l IH]; [reflexivity|].
  simpl map. simpl zip. rewrite mapM_cons. simpl fst. simpl snd.
  assert (Hj : (j <? length (g p))%nat = true).
  { apply Nat.ltb_lt, Hg. now left. }
  rewrite Hj, bind_Ok.
  rewrite IH by (intros; apply Hg; now right). reflexivity.
Qed.

Lemma negate_second_rows {Y : Type} (a b : Y -> Q) (l : list Y) :
  negate_second (map (fun p => [a p; b p]) l)
  = Ok (map (fun p => [a p; - b p]) l).
Proof.
  unfold negate_second.
  rewrite (np_col_map 1 _ b) by reflexivity. rewrite bind_Ok.
  rewrite map_map.
  rewrite (np_set_col_map 1 (fun p => [a p; b p]) (fun p => - b p))
    by (intros; simpl; lia).
  reflexivity.
Qed.

Lemma swap_columns_rows {X Y : Type} (a b : Y -> X) (l : list Y) :
  swap_columns (map (fun p => [a p; b p]) l)
  = Ok (map (fun p => [b p; a p]) l).
Proof.
  unfold swap_columns.
  rewrite (np_col_map 0 _ a) by reflexivity. rewrite bind_Ok.
  rewrite (np_set_col_map 1 (fun p => [a p; b p]) a) by (intros; simpl; lia).
  rewrite bind_Ok.
  rewrite (np_col_map 1 _ b) by reflexivity. rewrite bind_Ok.
  rewrite (np_set_col_map 0 (fun p => <[1%nat := a p]> [a p; b p]) b)
    by (intros; simpl; lia).
  reflexivity.
Qed.


(** ** Jaws *)

(** The value of [jaw_dd2dcm] on a non-empty array of pairs. *)
Lemma jaw_dd2dcm_rows `{Repr} (h : gmap loc (list (list Q)))
    (jaw : array_like (list (list Q))) (samples : list (Q * Q)) :
  samples <> [] ->
  contents h jaw = map row2 samples ->
  jaw_dd2dcm h jaw
  = Ok (h, map (fun p => [str (- snd p); str (fst p)]) samples).
Proof.
  intros Hne Hc. unfold jaw_dd2dcm.
  assert (Hr : read h (np_array true h jaw) = map row2 samples).
  { destruct jaw; exact Hc. }
  assert (Hw : forall v, write h (np_array true h jaw) v = (h, Owned v)).
  { intros v. destruct jaw; reflexivity. }
  assert (Hbody :
    (negated ← negate_second (read h (np_array true h jaw));
     let '(h0, jaw0) := write h (np_array true h jaw) negated in
     converted_jaw ← swap_columns (map (map str) (read h0 jaw0));
     Ok (h0, converted_jaw))
    = Ok (h, map (fun p => [str (- snd p); str (fst p)]) samples)).
  { rewrite Hr. unfold row2.
    rewrite (negate_second_rows fst snd), bind_Ok, Hw. simpl read.
    rewrite map_map. simpl map.
    rewrite (swap_columns_rows (fun p : Q * Q => str (fst p))
               (fun p : Q * Q => str (- snd p))).
    reflexivity. }
  destruct jaw as [[|row rows]|l]; [|exact Hbody|exact Hbody].
  simpl in Hc. destruct samples; [congruence | discriminate].
Qed.




(** ** MLC *)








(** With one row per bank the call even fails when a bank has a single
    leaf: the rows have no column 1. *)
Lemma mlc_dd2dcm_bank_rows_single_leaf `{Repr} (a b : Q) :
  mlc_dd2dcm ∅ (PyList [[[a]; [b]]]) = Raise (IndexError msg_out_of_bounds).
Proof. reflexivity. Qed.

(** ** Choosing the fraction group *)

Lemma selection_mask (f : Q -> bool) (nums : list Z) (devs : list Q) :
  length devs = length nums ->
  np_sum_bool (map f devs)
  = length (filter (fun p : Z * Q => f (snd p) = true) (zip nums devs)) /\
  fst <$> filter (fun p : Z * bool => snd p = true) (zip nums (map f devs))
  = fst <$> filter (fun p : Z * Q => f (snd p) = true) (zip nums devs).
Proof.
  unfold np_sum_bool. revert devs.
  induction nums as [|n nums IH]; intros [|d devs] Hlen; simpl in Hlen;
    try discriminate; [split; reflexivity|].
  destruct (IH devs) as [IH1 IH2]; [lia|].
  simpl map. simpl zip. rewrite !filter_cons. simpl snd.
  destruct (f d) eqn:Hf.
  - rewrite !decide_True by reflexivity. rewrite !fmap_cons, IH2.
    simpl length. rewrite IH1. split; reflexivity.
  - rewrite !decide_False by discriminate. rewrite IH1, IH2. split; reflexivity.
Qed.

Lemma select_within_tolerance_cases (nums : list Z) (devs : list Q) (tol : Q) :
  length devs = length nums ->
  (within_tolerance nums devs tol = [] ->
   select_within_tolerance nums devs tol = Raise (ValueError msg_not_found)) /\
  ((1 < length (within_tolerance nums devs tol))%nat ->
   select_within_tolerance nums devs tol = Raise (ValueError msg_ambiguous)) /\
  (forall n, within_tolerance nums devs tol = [n] ->
             select_within_tolerance nums devs tol = Ok (PyIntArray [n])).
Proof.
  intros Hlen.
  destruct (selection_mask (fun d => Qle_bool d tol) nums devs Hlen)
    as [Hsum Hsel].
  unfold select_within_tolerance, within_tolerance. cbv zeta.
  rewrite Hsum. unfold mask_select.
  rewrite length_map, Hlen, Nat.eqb_refl, Hsel.
  set (acc := filter (fun p : Z * Q => Qle_bool (snd p) tol = true)
                     (zip nums devs)).
  assert (Hacc : length (fst <$> acc) = length acc) by apply length_fmap.
  split; [|split].
  - intros Hnil. rewrite Hnil in Hacc. simpl in Hacc.
    rewrite <- Hacc. reflexivity.
  - intros Hmany. rewrite Hacc in Hmany.
    destruct (length acc) as [|[|k]]; [lia | lia | reflexivity].
  - intros n Hone. rewrite Hone in *. simpl in Hacc.
    rewrite <- Hacc. reflexivity.
Qed.

Lemma determine_several_groups `{Externals} (h : heap) (dd : DeliveryDataBase)
    (tpl : Dataset) (gantry_tol : option Q) (meterset_tol : Q) :
  length (FractionGroupNumbers tpl) <> 1%nat ->
  determine_fraction_group_number h dd tpl gantry_tol meterset_tol
  = (deviations ← maximum_deviations h dd tpl gantry_tol
                    (FractionGroupNumbers tpl);
     select_within_tolerance (FractionGroupNumbers tpl) deviations
       meterset_tol).
Proof.
  intros Hlen. unfold determine_fraction_group_number.
  destruct (FractionGroupNumbers tpl) as [|a [|b l]];
    [reflexivity | simpl in Hlen; lia | reflexivity].
Qed.

Lemma length_zip_same {X Y : Type} (l : list X) (k : list Y) :
  length l = length k -> length (zip l k) = length l.
Proof. intros Hlen. rewrite length_zip_with. lia. Qed.

Lemma maximum_deviations_length `{Externals} (h : heap) (dd : DeliveryDataBase)
    (tpl : Dataset) (gantry_tol : option Q) (nums : list Z) (devs : list Q) :
  maximum_deviations h dd tpl gantry_tol nums = Ok devs ->
  length devs = length nums.
Proof.
  unfold maximum_deviations. intros Hrun.
  apply bind_Ok_inv in Hrun as (dm & Hdm & Hrun).
  apply bind_Ok_inv in Hrun as (split & Hsplit & Hrun).
  apply bind_Ok_inv in Hrun as (angles & Hangles & Hrun).
  apply bind_Ok_inv in Hrun as (tols & Htols & Hrun).
  apply bind_Ok_inv in Hrun as (masked & Hmasked & Hrun).
  apply bind_Ok_inv in Hrun as (ddm & Hddm & Hrun).
  apply mapM_Ok_length in Hdm, Hsplit, Hangles, Htols, Hmasked, Hddm, Hrun.
  rewrite length_zip_same in Hmasked by lia.
  rewrite length_zip_same in Hrun by lia. lia.
Qed.

(** C2, what the code does: for a template with several fraction groups
    whose maximum deviations were computed, no candidate within tolerance
    raises the not-found error and several raise the ambiguity error; a
    single candidate [n] within tolerance is returned as the one-element
    array [[n]], which is not the number [n] that the single-group branch
    returns. *)
Theorem determine_fraction_group_number_selection `{Externals} (h : heap)
    (dd : DeliveryDataBase) (tpl : Dataset) (gantry_tol : option Q)
    (meterset_tol : Q) (deviations : list Q) :
  length (FractionGroupNumbers tpl) <> 1%nat ->
  maximum_deviations h dd tpl gantry_tol (FractionGroupNumbers tpl)
  = Ok deviations ->
  (within_tolerance (FractionGroupNumbers tpl) deviations meterset_tol = [] ->
   determine_fraction_group_number h dd tpl gantry_tol meterset_tol
   = Raise (ValueError msg_not_found)) /\
  ((1 < length (within_tolerance (FractionGroupNumbers tpl) deviations
                  meterset_tol))%nat ->
   determine_fraction_group_number h dd tpl gantry_tol meterset_tol
   = Raise (ValueError msg_ambiguous)) /\
  (forall n,
      within_tolerance (FractionGroupNumbers tpl) deviations meterset_tol = [n] ->
      determine_fraction_group_number h dd tpl gantry_tol meterset_tol
      = Ok (PyIntArray [n]) /\
      determine_fraction_group_number h dd tpl gantry_tol meterset_tol
      <> Ok (PyInt n)).
Proof.
  intros Hseveral Hdev.
  rewrite (determine_several_groups h dd tpl gantry_tol meterset_tol Hseveral).
  rewrite Hdev, bind_Ok.
  destruct (select_within_tolerance_cases (FractionGroupNumbers tpl) deviations
              meterset_tol (maximum_deviations_length _ _ _ _ _ _ Hdev))
    as (Hnone & Hmany & Hone).
  split; [exact Hnone|]. split; [exact Hmany|].
  intros n Hn. rewrite (Hone n Hn). split; [reflexivity | discriminate].
Qed.

Lemma determine_fraction_group_number_selection_witness :
  determine_fraction_group_number (H0 := Plan.externals) Plan.empty_heap
    Plan.delivered Plan.overlapping_template None 0.5
  = Ok (PyIntArray [2%Z]) /\
  determine_fraction_group_number (H0 := Plan.externals) Plan.empty_heap
    Plan.delivered Plan.overlapping_template None 0.5
  <> Ok (PyInt 2) /\
  determine_fraction_group_number (H0 := Plan.externals) Plan.empty_heap
    Plan.delivered Plan.single_template None 0.5
  = Ok (PyInt 2).
Proof.
  destruct (determine_fraction_group_number_selection (H := Plan.externals)
              Plan.empty_heap Plan.delivered Plan.overlapping_template None 0.5
              [150.3; 0.3]) as (_ & _ & Hone).
  - simpl. lia.
  - vm_compute. reflexivity.
  - destruct (Hone 2%Z) as [Hrun Hne]; [vm_compute; reflexivity|].
    split; [exact Hrun|]. split; [exact Hne | reflexivity].
Defined.

(** ** A candidate whose masking fails *)

Lemma maximum_deviation_absent (dicom_metersets : list Q) :
  maximum_deviation dicom_metersets []
  = Raise (ValueError (if (length dicom_metersets <=? 1)%nat
                       then msg_zero_size_max else msg_broadcast)).
Proof. destruct dicom_metersets as [|a [|b l]]; reflexivity. Qed.

Lemma zip_lookup {X Y : Type} (l : list X) (k : list Y) (i : nat) (x : X) (y : Y) :
  l !! i = Some x -> k !! i = Some y -> zip l k !! i = Some (x, y).
Proof.
  intros Hx Hy. rewrite lookup_zip_with, Hx. simpl. now rewrite Hy.
Qed.

(** C3, what the code does: when the masking of some candidate of a
    template with several fraction groups raises [AssertionError], and the
    empty delivery that replaces it yields no metersets (an empty list, or
    an error), the computation of the maximum deviations raises, and with it
    [determine_fraction_group_number]: no candidate is accepted or
    rejected. *)
Theorem masking_failure_aborts_resolution `{Externals} (h : heap)
    (dd : DeliveryDataBase) (tpl : Dataset) (gantry_tol : option Q)
    (meterset_tol : Q) (i : nat) (n : Z) (single : Dataset) (angles : list Q)
    (tol : Q) (msg : string) :
  length (FractionGroupNumbers tpl) <> 1%nat ->
  FractionGroupNumbers tpl !! i = Some n ->
  convert_to_one_fraction_group tpl (PyInt n) = Ok single ->
  get_gantry_angles_from_dicom single = Ok angles ->
  match gantry_tol with
  | None => gantry_tol_from_gantry_angles angles
  | Some t => Ok t
  end = Ok tol ->
  get_all_masked_delivery_data h dd angles tol true
  = Raise (AssertionError msg) ->
  (forall metersets,
      get_metersets_from_delivery_data h (OneDelivery DeliveryDataBase_empty)
      = Ok metersets -> metersets = []) ->
  exists e,
    maximum_deviations h dd tpl gantry_tol (FractionGroupNumbers tpl) = Raise e /\
    determine_fraction_group_number h dd tpl gantry_tol meterset_tol = Raise e.
Proof.
  intros Hseveral Hn Hsingle Hangles Htol Hmask Hempty.
  rewrite (determine_several_groups h dd tpl gantry_tol meterset_tol Hseveral).
  assert (Hraise : exists e,
             maximum_deviations h dd tpl gantry_tol (FractionGroupNumbers tpl)
             = Raise e).
  { destruct (maximum_deviations h dd tpl gantry_tol (FractionGroupNumbers tpl))
      as [devs|e] eqn:Hrun; [exfalso | eauto].
    unfold maximum_deviations in Hrun.
    apply bind_Ok_inv in Hrun as (dm & Hdm & Hrun).
    apply bind_Ok_inv in Hrun as (split & Hsplit & Hrun).
    apply bind_Ok_inv in Hrun as (angs & Hangs & Hrun).
    apply bind_Ok_inv in Hrun as (tols & Htols & Hrun).
    apply bind_Ok_inv in Hrun as (masked & Hmasked & Hrun).
    apply bind_Ok_inv in Hrun as (ddm & Hddm & Hrun).
    destruct (mapM_Ok_lookup _ _ _ _ _ Hdm Hn) as (ms & Hms & _).
    destruct (mapM_Ok_lookup _ _ _ _ _ Hsplit Hn) as (s & Hs & Hs').
    assert (s = single) by congruence. subst s.
    destruct (mapM_Ok_lookup _ _ _ _ _ Hangs Hs) as (a & Ha & Ha').
    assert (a = angles) by congruence. subst a.
    destruct (mapM_Ok_lookup _ _ _ _ _ Htols Ha) as (t & Ht & Ht').
    assert (t = tol) by congruence. subst t.
    pose proof (zip_lookup _ _ _ _ _ Ha Ht) as Hz.
    destruct (mapM_Ok_lookup _ _ _ _ _ Hmasked Hz) as (m & Hm & Hm').
    unfold masked_or_empty in Hm'. simpl in Hm'. rewrite Hmask in Hm'.
    inversion Hm'; subst m.
    destruct (mapM_Ok_lookup _ _ _ _ _ Hddm Hm) as (d & Hd & Hd').
    assert (d = []) by (apply Hempty; exact Hd'). subst d.
    pose proof (zip_lookup _ _ _ _ _ Hms Hd) as Hz'.
    destruct (mapM_Ok_lookup _ _ _ _ _ Hrun Hz') as (y & _ & Hy).
    simpl in Hy. rewrite maximum_deviation_absent in Hy. discriminate. }
  destruct Hraise as (e & He). exists e. split; [exact He|].
  now rewrite He.
Qed.

Lemma masking_failure_aborts_resolution_witness :
  exists e,
    maximum_deviations (H0 := Plan.externals) Plan.empty_heap Plan.delivered
      Plan.separated_template None [1%Z; 2%Z] = Raise e /\
    determine_fraction_group_number (H0 := Plan.externals) Plan.empty_heap
      Plan.delivered Plan.separated_template None 0.5 = Raise e.
Proof.
  apply (masking_failure_aborts_resolution (H := Plan.externals)
           Plan.empty_heap Plan.delivered Plan.separated_template None 0.5
           0%nat 1%Z
           [ {| Plan.fg_number := 1;
                Plan.fg_beams := [Plan.plain_beam 0 100; Plan.plain_beam 90 120] |} ]
           [0; 90] 3 "no matching samples"%string).
  - simpl. lia.
  - reflexivity.
  - reflexivity.
  - reflexivity.
  - reflexivity.
  - reflexivity.
  - intros metersets Hm. simpl in Hm. now inversion Hm.
Defined.

(** The delivery that belongs to group 2 alone is not resolved to group 2
    when the masking under group 1 fails: the call ends in numpy's
    broadcasting error. *)
Lemma unique_match_scenario_raises :
  determine_fraction_group_number (H0 := Plan.externals) Plan.empty_heap
    Plan.delivered Plan.separated_template None 0.5
  = Raise (ValueError msg_broadcast).
Proof. vm_compute. reflexivity. Qed.

(** ** No fraction group number given *)

(** C1, what the code does: a call without a fraction group number hands
    [None] to [convert_to_one_fraction_group] as it is, so when that lookup
    rejects [None] the call fails with the lookup's error; the resolver is
    not consulted. *)
Theorem delivery_data_to_dicom_forwards_none `{Repr} `{Externals} (h : heap)
    (dd : DeliveryDataBase) (tpl : Dataset) (e : exn) :
  convert_to_one_fraction_group tpl PyNone = Raise e ->
  delivery_data_to_dicom h dd tpl PyNone = Raise e.
Proof.
  intros Hnone. unfold delivery_data_to_dicom. now rewrite Hnone.
Qed.

Lemma delivery_data_to_dicom_forwards_none_witness :
  determine_fraction_group_number (H0 := Plan.externals) Plan.empty_heap
    Plan.delivered Plan.single_template None 0.5 = Ok (PyInt 2) /\
  (exists out,
      delivery_data_to_dicom (H := Plan.repr) (H0 := Plan.externals)
        Plan.empty_heap Plan.delivered Plan.single_template (PyInt 2)
      = Ok out) /\
  delivery_data_to_dicom (H := Plan.repr) (H0 := Plan.externals)
    Plan.empty_heap Plan.delivered Plan.single_template PyNone
  = Raise (ValueError Plan.msg_not_in_list).
Proof.
  split; [reflexivity|]. split.
  - eexists. vm_compute. reflexivity.
  - apply (delivery_data_to_dicom_forwards_none (H := Plan.repr)
             (H0 := Plan.externals)).
    reflexivity.
Defined.

(** * Further properties of the conversions *)

(** ** Angles: edge cases, the store, and the tags of monotone sequences *)

(** X1: an angle sequence without samples, given as a list or as an array,
    makes [angle_dd2dcm] fail with numpy's boolean index error. *)
Theorem angle_dd2dcm_no_samples `{Repr} (h : gmap loc (list Q))
    (angle : array_like (list Q)) :
  contents h angle = [] ->
  angle_dd2dcm h angle = Raise (IndexError msg_bool_index).
Proof. intros Ha. unfold angle_dd2dcm. rewrite Ha. reflexivity. Qed.

Lemma angle_dd2dcm_no_samples_witness :
  angle_dd2dcm (H := Plan.repr) {[ 1%positive := [] ]} (NdArray 1%positive)
  = Raise (IndexError msg_bool_index).
Proof.
  apply (angle_dd2dcm_no_samples (H := Plan.repr)). reflexivity.
Defined.

Lemma angle_dd2dcm_Ok_nonempty `{Repr} (h h' : gmap loc (list Q))
    (angle : array_like (list Q)) (out : list string * list string) :
  angle_dd2dcm h angle = Ok (h', out) -> contents h angle <> [].
Proof.
  intros Hrun Ha. unfold angle_dd2dcm in Hrun. rewrite Ha in Hrun.
  discriminate.
Qed.

(** X2: a successful [angle_dd2dcm] changes no array other than the one it
    was given, and changes nothing at all when it was given a list. *)
Theorem angle_dd2dcm_touches_only_its_argument `{Repr}
    (h h' : gmap loc (list Q)) (angle : array_like (list Q))
    (out : list string * list string) :
  angle_dd2dcm h angle = Ok (h', out) ->
  (forall l, angle <> NdArray l -> h' !! l = h !! l) /\
  (forall a, angle = PyList a -> h' = h).
Proof.
  intros Hrun. pose proof (angle_dd2dcm_Ok_nonempty _ _ _ _ Hrun) as Hne.
  rewrite (angle_dd2dcm_value h angle Hne) in Hrun.
  inversion Hrun as [[Hh Hout]]. clear Hrun. split.
  - intros l Hl. destruct angle as [a|l0]; [reflexivity|].
    apply lookup_insert_ne. congruence.
  - intros a ->. reflexivity.
Qed.

Lemma angle_dd2dcm_touches_only_its_argument_witness :
  exists h',
    angle_dd2dcm (H := Plan.repr)
      {[ 1%positive := [-10; 10] ]} (NdArray 1%positive)
    = Ok (h', (map (str (Repr := Plan.repr)) [350; 10],
               ["CW"; "NONE"]%string)) /\
    h' !! 2%positive = ({[ 1%positive := [-10; 10] ]} : gmap loc (list Q)) !! 2%positive.
Proof.
  eexists. split; [vm_compute; reflexivity|].
  eapply (angle_dd2dcm_touches_only_its_argument (H := Plan.repr)
            {[ 1%positive := [-10; 10] ]} _ (NdArray 1%positive));
    [vm_compute; reflexivity | discriminate].
Defined.

Lemma map_normalize_nonnegative (a : list Q) :
  Forall (fun x => 0 <= x) a -> map normalize a = a.
Proof.
  induction 1 as [|x a Hx _ IH]; [reflexivity|].
  simpl. rewrite IH. f_equal. unfold normalize.
  apply Qltb_ge in Hx. now rewrite Hx.
Qed.

(** X3: when the array given to [angle_dd2dcm] holds no negative angle, the
    call leaves the store as it was. *)
Theorem angle_dd2dcm_nonnegative_unchanged `{Repr} (h h' : gmap loc (list Q))
    (l : loc) (a : list Q) (out : list string * list string) :
  h !! l = Some a ->
  Forall (fun x => 0 <= x) a ->
  angle_dd2dcm h (NdArray l) = Ok (h', out) ->
  h' = h.
Proof.
  intros Hl Hpos Hrun.
  pose proof (angle_dd2dcm_Ok_nonempty _ _ _ _ Hrun) as Hne.
  rewrite (angle_dd2dcm_value h _ Hne) in Hrun.
  inversion Hrun as [[Hh Hout]]. simpl.
  rewrite (lookup_total_correct _ _ _ Hl).
  rewrite (map_normalize_nonnegative a Hpos). now apply insert_id.
Qed.

Lemma angle_dd2dcm_nonnegative_unchanged_witness :
  exists h' out,
    angle_dd2dcm (H := Plan.repr)
      {[ 1%positive := [0; 90; 45] ]} (NdArray 1%positive) = Ok (h', out) /\
    h' = {[ 1%positive := [0; 90; 45] ]}.
Proof.
  eexists _, _. split; [rewrite angle_dd2dcm_value; [reflexivity|]|].
  - simpl. rewrite (lookup_total_correct _ _ [0; 90; 45]);
      [discriminate|reflexivity].
  - eapply (angle_dd2dcm_nonnegative_unchanged (H := Plan.repr)
              {[ 1%positive := [0; 90; 45] ]} _ 1%positive [0; 90; 45]).
    + reflexivity.
    + repeat constructor; vm_compute; discriminate.
    + rewrite angle_dd2dcm_value; [reflexivity|]. simpl.
      rewrite (lookup_total_correct _ _ [0; 90; 45]);
        [discriminate|reflexivity].
Defined.

Lemma map_constant {X Y : Type} (f : X -> Y) (l : list X) (c : Y) :
  (forall i x, l !! i = Some x -> f x = c) ->
  map f l = replicate (length l) c.
Proof.
  induction l as [|x l IH]; intros Hc; [reflexivity|].
  simpl. rewrite (Hc 0%nat x eq_refl). f_equal.
  apply IH. intros i y Hy. exact (Hc (S i) y Hy).
Qed.

Lemma tags_of_uniform_differences (a : list Q) (c : string) :
  (forall i x y, a !! i = Some x -> a !! S i = Some y -> direction (y - x) = c) ->
  map direction (np_append (np_diff a) 0)
  = replicate (length a - 1) c ++ ["NONE"%string].
Proof.
  intros Hc. unfold np_append. rewrite map_app. f_equal.
  rewrite (map_constant direction (np_diff a) c).
  - rewrite length_np_diff. f_equal. lia.
  - intros i d Hd. apply np_diff_lookup in Hd as (x & y & Hx & Hy & ->).
    eapply Hc; eauto.
Qed.

(** X4: on a strictly increasing angle sequence every tag but the last is
    CW, on a strictly decreasing one every tag but the last is CC, on a
    constant one every tag is NONE; the last tag is NONE in all three. *)
Theorem angle_dd2dcm_monotone_tags `{Repr} (h : gmap loc (list Q))
    (angle : array_like (list Q)) :
  contents h angle <> [] ->
  exists h' converted movement,
    angle_dd2dcm h angle = Ok (h', (converted, movement)) /\
    ((forall i x y, contents h angle !! i = Some x ->
                    contents h angle !! S i = Some y -> x < y) ->
     movement = replicate (length (contents h angle) - 1) "CW"%string
                ++ ["NONE"%string]) /\
    ((forall i x y, contents h angle !! i = Some x ->
                    contents h angle !! S i = Some y -> y < x) ->
     movement = replicate (length (contents h angle) - 1) "CC"%string
                ++ ["NONE"%string]) /\
    ((forall i x y, contents h angle !! i = Some x ->
                    contents h angle !! S i = Some y -> x == y) ->
     movement = replicate (length (contents h angle) - 1) "NONE"%string
                ++ ["NONE"%string]).
Proof.
  intros Hne. rewrite (angle_dd2dcm_value h angle Hne).
  eexists _, _, _. split; [reflexivity|].
  split; [|split]; intros Hmono; apply tags_of_uniform_differences;
    intros i x y Hx Hy; specialize (Hmono i x y Hx Hy); unfold direction.
  - assert (H1 : Qltb 0 (y - x) = true) by (apply Qltb_lt; lra).
    now rewrite H1.
  - assert (H1 : Qltb 0 (y - x) = false) by (apply Qltb_ge; lra).
    assert (H2 : Qltb (y - x) 0 = true) by (apply Qltb_lt; lra).
    now rewrite H1, H2.
  - assert (H1 : Qltb 0 (y - x) = false) by (apply Qltb_ge; lra).
    assert (H2 : Qltb (y - x) 0 = false) by (apply Qltb_ge; lra).
    now rewrite H1, H2.
Qed.

Lemma angle_dd2dcm_monotone_tags_witness :
  exists h' converted,
    angle_dd2dcm (H := Plan.repr) ∅ (PyList [-170; -20; 0; 15])
    = Ok (h', (converted, ["CW"; "CW"; "CW"; "NONE"]%string)).
Proof.
  destruct (angle_dd2dcm_monotone_tags (H := Plan.repr) ∅
              (PyList [-170; -20; 0; 15]))
    as (h' & converted & movement & Hrun & Hinc & _ & _).
  - simpl. discriminate.
  - exists h', converted. rewrite Hrun, Hinc; [reflexivity|].
    intros [|[|[|[|i]]]] x y Hx Hy; simpl in Hx, Hy;
      inversion Hx; inversion Hy; subst; reflexivity.
Defined.

Lemma normalize_range (a : Q) :
  -360 <= a -> a <= 360 -> 0 <= normalize a /\ normalize a <= 360.
Proof.
  intros Hlo Hhi. unfold normalize. destruct (Qltb a 0) eqn:Ha.
  - apply Qltb_lt in Ha. split; lra.
  - apply Qltb_ge in Ha. split; lra.
Qed.

Lemma map_normalize_range (a : list Q) :
  Forall (fun x => -360 <= x /\ x <= 360) a ->
  Forall (fun v => 0 <= v /\ v <= 360) (map normalize a).
Proof.
  induction 1 as [|x a [Hlo Hhi] _ IH]; simpl; constructor;
    [now apply normalize_range | exact IH].
Qed.

(** X5: when every input angle lies between -360 and 360, both included,
    the numbers that [angle_dd2dcm] prints, and writes back when given an
    array, all lie between 0 and 360, both included.  The upper end is not
    excluded: a sum [a + 360] that is rounded can be 360 itself. *)
Theorem angle_dd2dcm_range `{Repr} (h : gmap loc (list Q))
    (angle : array_like (list Q)) :
  contents h angle <> [] ->
  Forall (fun a => -360 <= a /\ a <= 360) (contents h angle) ->
  exists h' values movement,
    angle_dd2dcm h angle = Ok (h', (map str values, movement)) /\
    length values = length (contents h angle) /\
    Forall (fun v => 0 <= v /\ v <= 360) values /\
    (forall l, angle = NdArray l -> h' !! l = Some values).
Proof.
  intros Hne Hall. rewrite (angle_dd2dcm_value h angle Hne).
  eexists _, (map normalize (contents h angle)), _.
  split; [reflexivity|]. split; [apply length_map|]. split.
  - now apply map_normalize_range.
  - intros l ->. apply lookup_insert_eq.
Qed.

Lemma angle_dd2dcm_range_witness :
  exists h' values movement,
    angle_dd2dcm (H := Plan.repr) ∅ (PyList [-360; -180; 179.5; 360])
    = Ok (h', (map (str (Repr := Plan.repr)) values, movement)) /\
    Forall (fun v => 0 <= v /\ v <= 360) values.
Proof.
  destruct (angle_dd2dcm_range (H := Plan.repr) ∅
              (PyList [-360; -180; 179.5; 360]))
    as (h' & values & movement & Hrun & _ & Hrange & _).
  - simpl. discriminate.
  - repeat constructor; vm_compute; discriminate.
  - eauto.
Defined.

(** X6: a second [angle_dd2dcm] on the array that a first call has
    rewritten prints the same angles and leaves the array as the first call
    left it, provided no input angle was below -360. *)
Theorem angle_dd2dcm_second_call `{Repr} (h h1 : gmap loc (list Q)) (l : loc)
    (a : list Q) (out1 : list string * list string) :
  h !! l = Some a ->
  Forall (fun x => -360 <= x) a ->
  angle_dd2dcm h (NdArray l) = Ok (h1, out1) ->
  exists movement2,
    angle_dd2dcm h1 (NdArray l) = Ok (h1, (fst out1, movement2)).
Proof.
  intros Hl Hlow Hrun.
  pose proof (angle_dd2dcm_Ok_nonempty _ _ _ _ Hrun) as Hne.
  rewrite (angle_dd2dcm_value h _ Hne) in Hrun.
  simpl in Hrun, Hne. rewrite (lookup_total_correct _ _ _ Hl) in Hrun, Hne.
  inversion Hrun as [[Hh Hout]]. clear Hrun. simpl.
  assert (Hc : contents (<[l := map normalize a]> h) (NdArray l)
               = map normalize a).
  { simpl. apply lookup_total_insert_eq. }
  rewrite angle_dd2dcm_value.
  - rewrite Hc, (map_normalize_twice a Hlow), insert_insert_eq.
    eexists. reflexivity.
  - rewrite Hc. destruct a; [congruence | discriminate].
Qed.

Lemma angle_dd2dcm_second_call_witness :
  exists h1 out1 movement2,
    angle_dd2dcm (H := Plan.repr) {[ 1%positive := [-10; 10] ]}
      (NdArray 1%positive) = Ok (h1, out1) /\
    angle_dd2dcm (H := Plan.repr) h1 (NdArray 1%positive)
    = Ok (h1, (fst out1, movement2)).
Proof.
  assert (Hfirst : exists h1 out1,
             angle_dd2dcm (H := Plan.repr) {[ 1%positive := [-10; 10] ]}
               (NdArray 1%positive) = Ok (h1, out1)).
  { eexists _, _. rewrite angle_dd2dcm_value; [reflexivity|]. simpl.
    rewrite (lookup_total_correct _ _ [-10; 10]); [discriminate|reflexivity]. }
  destruct Hfirst as (h1 & out1 & Hrun).
  destruct (angle_dd2dcm_second_call (H := Plan.repr)
              {[ 1%positive := [-10; 10] ]} h1 1%positive [-10; 10] out1)
    as (movement2 & Hsecond).
  - reflexivity.
  - repeat constructor; vm_compute; discriminate.
  - exact Hrun.
  - exists h1, out1, movement2. split; assumption.
Defined.

(** ** Jaws and MLC: which inputs are accepted *)

Lemma np_col_succeeds {X : Type} (j : nat) (m : list (list X)) :
  Forall (fun row => (j < length row)%nat) m ->
  exists v, np_col j m = Ok v /\ length v = length m.
Proof.
  unfold np_col. induction 1 as [|row m Hrow _ (v & Hv & Hlen)].
  - exists []. split; reflexivity.
  - destruct (lookup_lt_is_Some_2 row j Hrow) as (x & Hx).
    exists (x :: v). rewrite mapM_cons, Hx, bind_Ok, Hv, bind_Ok.
    split; [reflexivity | simpl; now rewrite Hlen].
Qed.

Lemma np_col_raises {X : Type} (j : nat) (m : list (list X)) :
  Exists (fun row => (length row <= j)%nat) m ->
  np_col j m = Raise (IndexError msg_out_of_bounds).
Proof.
  unfold np_col. induction m as [|row m IH]; intros Hex.
  - inversion Hex.
  - rewrite mapM_cons. destruct (row !! j) as [x|] eqn:Hx; [|reflexivity].
    rewrite bind_Ok. inversion Hex as [? ? Hshort|? ? Htail]; subst.
    + apply lookup_lt_Some in Hx. lia.
    + now rewrite (IH Htail).
Qed.

Lemma np_set_col_value {X : Type} (j : nat) (m : list (list X)) (v : list X) :
  Forall (fun row => (j < length row)%nat) m ->
  length v = length m ->
  np_set_col j m v = Ok (zip_with (fun row x => <[j := x]> row) m v).
Proof.
  intros Hm Hlen. unfold np_set_col. rewrite Hlen, Nat.eqb_refl.
  revert v Hlen. induction Hm as [|row m Hrow _ IH]; intros [|x v] Hlen;
    simpl in Hlen; try discriminate; [reflexivity|].
  simpl zip. rewrite mapM_cons. simpl fst. simpl snd.
  apply Nat.ltb_lt in Hrow. rewrite Hrow, bind_Ok.
  rewrite IH by lia. reflexivity.
Qed.

Lemma set_col_keeps_rows {X : Type} (j k : nat) (m : list (list X)) (v : list X) :
  Forall (fun row => (k < length row)%nat) m ->
  Forall (fun row => (k < length row)%nat)
         (zip_with (fun row x => <[j := x]> row) m v).
Proof.
  intros Hm. revert v. induction Hm as [|row m Hrow _ IH]; intros [|x v];
    simpl; constructor; [now rewrite length_insert | apply IH].
Qed.

Lemma negate_second_succeeds (jaw : list (list Q)) :
  Forall (fun row => (2 <= length row)%nat) jaw ->
  exists negated,
    negate_second jaw = Ok negated /\
    length negated = length jaw /\
    Forall (fun row => (2 <= length row)%nat) negated.
Proof.
  intros Hrows. unfold negate_second.
  assert (H1 : Forall (fun row : list Q => (1 < length row)%nat) jaw).
  { eapply Forall_impl; [exact Hrows | intros; simpl in *; lia]. }
  destruct (np_col_succeeds 1 jaw H1) as (c1 & Hc1 & Hlen).
  rewrite Hc1, bind_Ok.
  rewrite np_set_col_value by (rewrite ?length_map; assumption).
  eexists. split; [reflexivity|]. split.
  - rewrite length_zip_with, length_map. lia.
  - eapply Forall_impl; [apply set_col_keeps_rows, H1 | intros; simpl in *; lia].
Qed.

Lemma swap_columns_succeeds {X : Type} (s : list (list X)) :
  Forall (fun row => (2 <= length row)%nat) s ->
  exists converted, swap_columns s = Ok converted /\ length converted = length s.
Proof.
  intros Hrows. unfold swap_columns.
  assert (H0 : Forall (fun row : list X => (0 < length row)%nat) s).
  { eapply Forall_impl; [exact Hrows | intros; simpl in *; lia]. }
  assert (H1 : Forall (fun row : list X => (1 < length row)%nat) s).
  { eapply Forall_impl; [exact Hrows | intros; simpl in *; lia]. }
  destruct (np_col_succeeds 0 s H0) as (c0 & Hc0 & Hlen0).
  destruct (np_col_succeeds 1 s H1) as (c1 & Hc1 & Hlen1).
  rewrite Hc0, bind_Ok, (np_set_col_value 1 s c0 H1 Hlen0), bind_Ok.
  rewrite Hc1, bind_Ok.
  rewrite np_set_col_value.
  - eexists. split; [reflexivity|]. rewrite !length_zip_with. lia.
  - now apply set_col_keeps_rows.
  - rewrite length_zip_with. lia.
Qed.

(** X7: on a jaw array of at least one row, all rows having the same
    number of columns, [jaw_dd2dcm] succeeds when there are two columns or
    more, returning one row per sample and leaving the store as it was, and
    raises [IndexError] when there are fewer than two. *)
Theorem jaw_dd2dcm_accepts `{Repr} (h : gmap loc (list (list Q)))
    (jaw : array_like (list (list Q))) (columns : nat) :
  contents h jaw <> [] ->
  Forall (fun row => length row = columns) (contents h jaw) ->
  ((2 <= columns)%nat ->
   exists out,
     jaw_dd2dcm h jaw = Ok (h, out) /\ length out = length (contents h jaw)) /\
  ((columns < 2)%nat ->
   jaw_dd2dcm h jaw = Raise (IndexError msg_out_of_bounds)).
Proof.
  intros Hne Hrect.
  assert (Hr : read h (np_array true h jaw) = contents h jaw)
    by (destruct jaw; reflexivity).
  assert (Hw : forall v, write h (np_array true h jaw) v = (h, Owned v))
    by (intros v; destruct jaw; reflexivity).
  split.
  - intros Hcols.
    assert (Hrows : Forall (fun row : list Q => (2 <= length row)%nat)
                           (contents h jaw)).
    { eapply Forall_impl; [exact Hrect|]. intros row Hrow. simpl in *. lia. }
    assert (Hbody :
      exists out,
        (negated ← negate_second (read h (np_array true h jaw));
         let '(h0, jaw0) := write h (np_array true h jaw) negated in
         converted_jaw ← swap_columns (map (map str) (read h0 jaw0));
         Ok (h0, converted_jaw)) = Ok (h, out) /\
        length out = length (contents h jaw)).
    { rewrite Hr.
      destruct (negate_second_succeeds _ Hrows) as (negated & Hn & Hlen & Hrows').
      rewrite Hn, bind_Ok, Hw. simpl read.
      destruct (swap_columns_succeeds (map (map str) negated))
        as (converted & Hc & Hlenc).
      { apply Forall_map. eapply Forall_impl; [exact Hrows'|].
        intros row Hrow. simpl. now rewrite length_map. }
      rewrite Hc, bind_Ok. exists converted. split; [reflexivity|].
      rewrite Hlenc, length_map. exact Hlen. }
    unfold jaw_dd2dcm. destruct jaw as [[|row rows]|l];
      [now contradiction Hne | exact Hbody | exact Hbody].
  - intros Hcols.
    assert (Hshort : Exists (fun row : list Q => (length row < 2)%nat)
                            (contents h jaw)).
    { destruct (contents h jaw) as [|row rows]; [congruence|].
      apply Exists_cons_hd. inversion Hrect; subst. lia. }
    assert (Hbody :
      (negated ← negate_second (read h (np_array true h jaw));
       let '(h0, jaw0) := write h (np_array true h jaw) negated in
       converted_jaw ← swap_columns (map (map str) (read h0 jaw0));
       Ok (h0, converted_jaw)) = Raise (IndexError msg_out_of_bounds)).
    { rewrite Hr. unfold negate_second. rewrite np_col_raises; [reflexivity|].
      eapply Exists_impl; [exact Hshort | intros; simpl in *; lia]. }
    unfold jaw_dd2dcm. destruct jaw as [[|row rows]|l];
      [now contradiction Hne | exact Hbody | exact Hbody].
Qed.

Lemma jaw_dd2dcm_accepts_witness :
  (exists out,
      jaw_dd2dcm (H := Plan.repr) ∅ (PyList [[10; 20]; [30; 40]]) = Ok (∅, out) /\
      length out = 2%nat) /\
  jaw_dd2dcm (H := Plan.repr) ∅ (PyList [[10]; [30]])
  = Raise (IndexError msg_out_of_bounds).
Proof.
  split.
  - apply (jaw_dd2dcm_accepts (H := Plan.repr) ∅
             (PyList [[10; 20]; [30; 40]]) 2).
    + discriminate.
    + repeat constructor.
    + lia.
  - apply (jaw_dd2dcm_accepts (H := Plan.repr) ∅ (PyList [[10]; [30]]) 1).
    + discriminate.
    + repeat constructor.
    + lia.
Defined.

(** X8: on a non-empty sequence of jaw pairs, given as a list or as an
    array, [jaw_dd2dcm] returns for each pair [(a, b)] the printed [-b]
    followed by the printed [a], and leaves the store as it was. *)
Theorem jaw_dd2dcm_pairs `{Repr} (h : gmap loc (list (list Q)))
    (jaw : array_like (list (list Q))) (samples : list (Q * Q)) :
  samples <> [] ->
  contents h jaw = map row2 samples ->
  jaw_dd2dcm h jaw
  = Ok (h, map (fun p => [str (- snd p); str (fst p)]) samples).
Proof. apply jaw_dd2dcm_rows. Qed.

Lemma jaw_dd2dcm_pairs_witness :
  jaw_dd2dcm (H := Plan.repr) {[ 1%positive := [[10; 20]; [30; 40]] ]}
    (NdArray 1%positive)
  = Ok ({[ 1%positive := [[10; 20]; [30; 40]] ]},
        [["-20.000000"; "10.000000"]; ["-40.000000"; "30.000000"]]%string).
Proof.
  apply (jaw_dd2dcm_pairs (H := Plan.repr)
           {[ 1%positive := [[10; 20]; [30; 40]] ]} (NdArray 1%positive)
           [(10, 20); (30, 40)]).
  - discriminate.
  - reflexivity.
Defined.

Lemma mlc_control_point_succeeds (control_point : list (list Q)) :
  Forall (fun row => (2 <= length row)%nat) control_point ->
  exists c,
    mlc_control_point control_point = Ok c /\
    length c = (2 * length control_point)%nat.
Proof.
  intros Hrows. unfold mlc_control_point.
  assert (H0 : Forall (fun row : list Q => (0 < length row)%nat)
                      (rev control_point)).
  { apply Forall_rev. eapply Forall_impl; [exact Hrows | intros; simpl in *; lia]. }
  assert (H1 : Forall (fun row : list Q => (1 < length row)%nat)
                      (rev control_point)).
  { apply Forall_rev. eapply Forall_impl; [exact Hrows | intros; simpl in *; lia]. }
  destruct (np_col_succeeds 1 _ H1) as (b1 & Hb1 & Hl1).
  destruct (np_col_succeeds 0 _ H0) as (b0 & Hb0 & Hl0).
  rewrite Hb1, bind_Ok, Hb0, bind_Ok. eexists. split; [reflexivity|].
  rewrite length_app, length_map, Hl1, Hl0, length_rev. lia.
Qed.

Lemma mlc_control_point_raises (control_point : list (list Q)) :
  Exists (fun row => (length row < 2)%nat) control_point ->
  mlc_control_point control_point = Raise (IndexError msg_out_of_bounds).
Proof.
  intros Hshort. unfold mlc_control_point.
  rewrite (np_col_raises 1); [reflexivity|].
  apply Exists_rev. eapply Exists_impl; [exact Hshort | intros; simpl in *; lia].
Qed.

Lemma np_col_raise_kind {X : Type} (j : nat) (m : list (list X)) (e : exn) :
  np_col j m = Raise e -> e = IndexError msg_out_of_bounds.
Proof.
  unfold np_col. induction m as [|row m IH]; [discriminate|].
  rewrite mapM_cons. destruct (row !! j) as [x|]; [|now intros [= <-]].
  rewrite bind_Ok.
  destruct (mapM _ m) as [v|e'] eqn:Hm; [discriminate|].
  intros [= <-]. now apply IH.
Qed.

Lemma mlc_control_point_raise_kind (control_point : list (list Q)) (e : exn) :
  mlc_control_point control_point = Raise e ->
  e = IndexError msg_out_of_bounds.
Proof.
  unfold mlc_control_point.
  destruct (np_col 1 (rev control_point)) as [b1|e1] eqn:H1.
  - rewrite bind_Ok.
    destruct (np_col 0 (rev control_point)) as [b0|e0] eqn:H0; [discriminate|].
    intros [= <-]. exact (np_col_raise_kind _ _ _ H0).
  - intros [= <-]. exact (np_col_raise_kind _ _ _ H1).
Qed.

(** X9: on an MLC array in which every control point has the same number
    of leaves, at least one, and every leaf row the same number of columns,
    [mlc_dd2dcm] succeeds when there are two columns or more, returning one
    row per control point with twice as many entries as there are leaves and
    leaving the store as it was; with fewer than two columns and at least
    one control point it raises [IndexError]. *)
Theorem mlc_dd2dcm_accepts `{Repr} (h : gmap loc (list (list (list Q))))
    (mlc : array_like (list (list (list Q)))) (leaves columns : nat) :
  (1 <= leaves)%nat ->
  Forall (fun control_point =>
            length control_point = leaves /\
            Forall (fun row => length row = columns) control_point)
         (contents h mlc) ->
  ((2 <= columns)%nat ->
   exists out,
     mlc_dd2dcm h mlc = Ok (h, out) /\
     length out = length (contents h mlc) /\
     Forall (fun row => length row = (2 * leaves)%nat) out) /\
  ((columns < 2)%nat ->
   contents h mlc <> [] ->
   mlc_dd2dcm h mlc = Raise (IndexError msg_out_of_bounds)).
Proof.
  intros Hleaves.
  assert (Hr : read h (np_array false h mlc) = contents h mlc)
    by (destruct mlc; reflexivity).
  unfold mlc_dd2dcm. cbv zeta. rewrite Hr. clear Hr.
  generalize (contents h mlc). intros m Hrect. split.
  - intros Hcols.
    assert (Hmap : exists out,
               mapM (fun control_point =>
                       concatenated ← mlc_control_point control_point;
                       Ok (map str concatenated)) m = Ok out /\
               length out = length m /\
               Forall (fun row => length row = (2 * leaves)%nat) out).
    { induction Hrect as [|cp cps [Hcp Hrows] _ (out & Hout & Hlen & Hshape)].
      - exists []. split; [reflexivity|]. split; [reflexivity | constructor].
      - destruct (mlc_control_point_succeeds cp) as (c & Hc & Hlenc).
        { eapply Forall_impl; [exact Hrows|]. intros row Hrow. simpl in *. lia. }
        exists (map str c :: out).
        rewrite mapM_cons, Hc, !bind_Ok, Hout, bind_Ok.
        split; [reflexivity|]. split; [simpl; now rewrite Hlen|].
        constructor; [|exact Hshape]. rewrite length_map, Hlenc, Hcp. reflexivity. }
    destruct Hmap as (out & Hout & Hlen & Hshape). exists out.
    rewrite Hout, bind_Ok. repeat split; assumption.
  - intros Hcols Hne.
    destruct m as [|cp cps]; [congruence|].
    apply Forall_cons in Hrect as [[Hcp Hrows] _].
    rewrite mapM_cons, mlc_control_point_raises; [reflexivity|].
    destruct cp as [|row rows]; [simpl in Hcp; lia|].
    apply Exists_cons_hd. apply Forall_cons in Hrows as [Hrow _]. lia.
Qed.

Lemma mlc_dd2dcm_accepts_witness :
  (exists out,
      mlc_dd2dcm (H := Plan.repr) ∅ (PyList [[[1; 2]; [3; 4]; [5; 6]]])
      = Ok (∅, out) /\
      length out = 1%nat /\
      Forall (fun row => length row = 6%nat) out) /\
  mlc_dd2dcm (H := Plan.repr) ∅ (PyList [[[1]; [3]; [5]]])
  = Raise (IndexError msg_out_of_bounds).
Proof.
  split.
  - apply (mlc_dd2dcm_accepts (H := Plan.repr) ∅
             (PyList [[[1; 2]; [3; 4]; [5; 6]]]) 3 2).
    + lia.
    + repeat constructor.
    + lia.
  - apply (mlc_dd2dcm_accepts (H := Plan.repr) ∅
             (PyList [[[1]; [3]; [5]]]) 3 1).
    + lia.
    + repeat constructor.
    + lia.
    + discriminate.
Defined.

(** ** The gantry tolerance: bounds and separation of the beams *)

Lemma ascending_lookup_le (s : list Q) (i j : nat) (x y : Q) :
  Sorted Qle s -> (i < j)%nat -> s !! i = Some x -> s !! j = Some y -> x <= y.
Proof.
  intros Hs. apply Sorted_StronglySorted in Hs;
    [|intros a b c; apply Qle_trans].
  revert i j. induction Hs as [|z s Hs IH Hall]; intros i j Hij Hx Hy;
    [discriminate|].
  destruct j as [|j]; [lia|]. destruct i as [|i]; simpl in *.
  - inversion Hx; subst. rewrite Forall_forall in Hall.
    apply Hall. eapply list_elem_of_lookup_2, Hy.
  - eapply IH; [|exact Hx|exact Hy]. lia.
Qed.

Lemma min_gap_nonneg (gantry_angles : list Q) (m : Q) :
  np_min (np_diff (sorted gantry_angles)) = Ok m -> 0 <= m.
Proof.
  intros Hm. destruct (np_min_spec _ _ Hm) as [_ (e & He & Hme)].
  apply list_elem_of_In, list_elem_of_lookup in He as (i & Hi).
  apply np_diff_lookup in Hi as (x & y & Hx & Hy & ->).
  pose proof (ascending_lookup_le _ i (S i) x y
                (sorted_ascending gantry_angles) (Nat.lt_succ_diag_r i) Hx Hy).
  lra.
Qed.

Lemma gantry_tol_inv (gantry_angles : list Q) (tol : Q) :
  gantry_tol_from_gantry_angles gantry_angles = Ok tol ->
  exists m,
    np_min (np_diff (sorted gantry_angles)) = Ok m /\
    tol = Qmin (m / 2 - 0.1) 3.
Proof.
  unfold gantry_tol_from_gantry_angles. intros Hrun.
  apply bind_Ok_inv in Hrun as (m & Hm & Hrun).
  exists m. split; [exact Hm|]. simpl in Hrun. now inversion Hrun.
Qed.

Lemma half_is_product (m : Q) : m / 2 == m * 0.5.
Proof. unfold Qdiv. apply Qmult_comp; reflexivity. Qed.

(** X10: every tolerance that [gantry_tol_from_gantry_angles] returns lies
    between -0.1 and 3 degrees. *)
Theorem gantry_tol_bounds (gantry_angles : list Q) (tol : Q) :
  gantry_tol_from_gantry_angles gantry_angles = Ok tol ->
  -0.1 <= tol /\ tol <= 3.
Proof.
  intros Hrun. destruct (gantry_tol_inv _ _ Hrun) as (m & Hm & ->).
  pose proof (min_gap_nonneg _ _ Hm) as Hpos.
  pose proof (half_is_product m) as Hhalf. split.
  - apply Q.min_glb; lra.
  - apply Q.le_min_r.
Qed.

Lemma gantry_tol_bounds_witness :
  gantry_tol_from_gantry_angles [90; 0; 180.5] = Ok 3 /\ -0.1 <= 3 /\ 3 <= 3.
Proof.
  split; [reflexivity|].
  apply (gantry_tol_bounds [90; 0; 180.5] 3). reflexivity.
Defined.

Lemma gap_between_positions (gantry_angles : list Q) (m : Q) (i j : nat)
    (x y : Q) :
  np_min (np_diff (sorted gantry_angles)) = Ok m ->
  (i < j)%nat ->
  sorted gantry_angles !! i = Some x ->
  sorted gantry_angles !! j = Some y ->
  m <= y - x.
Proof.
  intros Hm Hij Hx Hy.
  destruct (lookup_lt_is_Some_2 (sorted gantry_angles) (S i)) as (z & Hz).
  { apply lookup_lt_Some in Hy. lia. }
  assert (Hgap : m <= z - x).
  { destruct (np_min_spec _ _ Hm) as [Hle _]. apply Hle.
    apply list_elem_of_In. eapply list_elem_of_lookup_2.
    apply np_diff_lookup. eauto. }
  assert (Hzy : z <= y).
  { destruct (Nat.eq_dec (S i) j) as [<-|Hne].
    - assert (z = y) by congruence. subst. apply Qle_refl.
    - eapply (ascending_lookup_le _ (S i) j);
        [apply sorted_ascending | lia | exact Hz | exact Hy]. }
  lra.
Qed.

(** X11: with the tolerance that [gantry_tol_from_gantry_angles] returns,
    a gantry angle that lies within tolerance of one template angle lies
    further than the tolerance from every different template angle. *)
Theorem gantry_windows_disjoint (gantry_angles : list Q) (tol x y g : Q) :
  gantry_tol_from_gantry_angles gantry_angles = Ok tol ->
  In x gantry_angles -> In y gantry_angles -> ~ x == y ->
  Qabs (g - x) <= tol -> tol < Qabs (g - y).
Proof.
  intros Hrun Hx Hy Hxy Hgx.
  apply Qnot_le_lt. intros Hgy.
  destruct (gantry_tol_inv _ _ Hrun) as (m & Hm & ->).
  assert (Htol : Qmin (m / 2 - 0.1) 3 <= m / 2 - 0.1) by apply Q.le_min_l.
  pose proof (half_is_product m) as Hhalf.
  apply Qabs_Qle_condition in Hgx, Hgy.
  apply (Permutation_in _ (sorted_perm gantry_angles)) in Hx, Hy.
  apply list_elem_of_In, list_elem_of_lookup in Hx as (i & Hi).
  apply list_elem_of_In, list_elem_of_lookup in Hy as (j & Hj).
  destruct (Nat.lt_total i j) as [Hlt|[Heq|Hgt]].
  - pose proof (gap_between_positions _ _ _ _ _ _ Hm Hlt Hi Hj). lra.
  - subst j. assert (x = y) by congruence. subst. apply Hxy. reflexivity.
  - pose proof (gap_between_positions _ _ _ _ _ _ Hm Hgt Hj Hi). lra.
Qed.

Lemma gantry_windows_disjoint_witness :
  3 < Qabs (2 - 90).
Proof.
  apply (gantry_windows_disjoint [90; 0; 180.5] 3 0 90 2).
  - reflexivity.
  - simpl. tauto.
  - simpl. tauto.
  - vm_compute. discriminate.
  - vm_compute. discriminate.
Defined.

(** ** The gantry tolerance does not depend on the order of the angles *)

Lemma pair_positions (s : list Q) (x y : Q) (rest : list Q) :
  Permutation s (x :: y :: rest) ->
  exists i j, i <> j /\ s !! i = Some x /\ s !! j = Some y.
Proof.
  intros Hp.
  destruct (Permutation_vs_cons_inv Hp) as (s1 & s2 & ->).
  apply Permutation_sym, Permutation_cons_app_inv in Hp.
  assert (Hy : In y (s1 ++ s2)).
  { eapply Permutation_in; [exact Hp | now left]. }
  apply list_elem_of_In, list_elem_of_lookup in Hy as (k & Hk).
  exists (length s1).
  destruct (Nat.lt_ge_cases k (length s1)) as [Hlt|Hge].
  - exists k. split; [lia|]. split; [apply list_lookup_middle; reflexivity|].
    rewrite lookup_app_l in Hk by assumption. now rewrite lookup_app_l.
  - exists (S k). split; [lia|]. split; [apply list_lookup_middle; reflexivity|].
    rewrite lookup_app_r in Hk by assumption.
    rewrite lookup_app_r by lia.
    replace (S k - length s1)%nat with (S (k - length s1)) by lia.
    exact Hk.
Qed.

Lemma adjacent_pair (s : list Q) (i : nat) (x y : Q) :
  s !! i = Some x -> s !! S i = Some y ->
  exists rest, Permutation s (x :: y :: rest).
Proof.
  intros Hx Hy. exists (take i s ++ drop (S (S i)) s).
  rewrite <- (take_drop_middle s i x Hx) at 1.
  rewrite (drop_S s y (S i) Hy).
  symmetry. etransitivity; [apply perm_skip, Permutation_middle|].
  apply Permutation_middle.
Qed.

Lemma min_gap_below_pairs (gantry_angles : list Q) (m x y : Q) (rest : list Q) :
  np_min (np_diff (sorted gantry_angles)) = Ok m ->
  Permutation gantry_angles (x :: y :: rest) ->
  m <= Qabs (y - x).
Proof.
  intros Hm Hp.
  assert (Hs : Permutation (sorted gantry_angles) (x :: y :: rest)).
  { etransitivity; [symmetry; apply sorted_perm | exact Hp]. }
  destruct (pair_positions _ _ _ _ Hs) as (i & j & Hij & Hi & Hj).
  destruct (Nat.lt_total i j) as [Hlt|[Heq|Hgt]]; [|congruence|].
  - pose proof (gap_between_positions _ _ _ _ _ _ Hm Hlt Hi Hj) as Hgap.
    eapply Qle_trans; [exact Hgap | apply Qle_Qabs].
  - pose proof (gap_between_positions _ _ _ _ _ _ Hm Hgt Hj Hi) as Hgap.
    rewrite <- Qabs_opp.
    eapply Qle_trans; [exact Hgap|].
    eapply Qle_trans; [|apply Qle_Qabs]. lra.
Qed.

Lemma min_gap_attained (gantry_angles : list Q) (m : Q) :
  np_min (np_diff (sorted gantry_angles)) = Ok m ->
  exists x y rest,
    Permutation gantry_angles (x :: y :: rest) /\ m == Qabs (y - x).
Proof.
  intros Hm. destruct (np_min_spec _ _ Hm) as [_ (e & He & Hme)].
  apply list_elem_of_In, list_elem_of_lookup in He as (i & Hi).
  apply np_diff_lookup in Hi as (x & y & Hx & Hy & ->).
  destruct (adjacent_pair _ _ _ _ Hx Hy) as (rest & Hp).
  exists x, y, rest. split.
  - etransitivity; [apply sorted_perm | exact Hp].
  - rewrite Hme. symmetry. apply Qabs_pos.
    pose proof (ascending_lookup_le _ i (S i) x y
                  (sorted_ascending gantry_angles) (Nat.lt_succ_diag_r i) Hx Hy).
    lra.
Qed.

(** X12: listing the same template angles in another order gives the same
    tolerance. *)
Theorem gantry_tol_order_independent (gantry_angles reordered : list Q)
    (tol : Q) :
  Permutation gantry_angles reordered ->
  gantry_tol_from_gantry_angles gantry_angles = Ok tol ->
  exists tol',
    gantry_tol_from_gantry_angles reordered = Ok tol' /\ tol' == tol.
Proof.
  intros Hp Hrun. destruct (gantry_tol_inv _ _ Hrun) as (m & Hm & ->).
  destruct (min_gap_attained _ _ Hm) as (x & y & rest & Hxy & Hmxy).
  assert (Hlen : (2 <= length (sorted reordered))%nat).
  { rewrite length_sorted, <- (Permutation_length Hp),
      (Permutation_length Hxy). simpl. lia. }
  destruct (np_min (np_diff (sorted reordered))) as [m'|e] eqn:Hm'.
  - destruct (min_gap_attained _ _ Hm') as (x' & y' & rest' & Hxy' & Hmxy').
    assert (Heq : m' == m).
    { apply Qle_antisym.
      - rewrite Hmxy. eapply min_gap_below_pairs; [exact Hm'|].
        etransitivity; [symmetry; exact Hp | exact Hxy].
      - rewrite Hmxy'. eapply min_gap_below_pairs; [exact Hm|].
        etransitivity; [exact Hp | exact Hxy']. }
    exists (Qmin (m' / 2 - 0.1) 3). split.
    + unfold gantry_tol_from_gantry_angles. rewrite Hm'. reflexivity.
    + apply Q.min_compat; [|reflexivity]. now rewrite Heq.
  - exfalso. destruct (sorted reordered) as [|a [|b s]]; simpl in Hlen; try lia.
    discriminate Hm'.
Qed.

Lemma gantry_tol_order_independent_witness :
  exists tol',
    gantry_tol_from_gantry_angles [0; 1; 90] = Ok tol' /\ tol' == 0.4.
Proof.
  edestruct (gantry_tol_order_independent [90; 0; 1] [0; 1; 90])
    as (tol' & Hrun & Heq).
  - apply (Permutation_cons_append [0; 1] 90).
  - reflexivity.
  - exists tol'. split; [exact Hrun|]. rewrite Heq. reflexivity.
Defined.

(** ** The maximum deviation of one candidate *)

Lemma fold_Qmax_ge_init (t : list Q) (x : Q) : x <= fold_left Qmax t x.
Proof.
  revert x. induction t as [|y t IH]; intros x; simpl; [apply Qle_refl|].
  eapply Qle_trans; [apply Q.le_max_l | apply IH].
Qed.

Lemma fold_Qmax_ge_elem (t : list Q) (x y : Q) :
  In y t -> y <= fold_left Qmax t x.
Proof.
  revert x. induction t as [|z t IH]; intros x Hy; [destruct Hy|].
  destruct Hy as [Hy|Hy]; simpl.
  - subst. eapply Qle_trans; [apply Q.le_max_r | apply fold_Qmax_ge_init].
  - now apply IH.
Qed.

Lemma fold_Qmax_attained (t : list Q) (x : Q) :
  exists e, In e (x :: t) /\ fold_left Qmax t x == e.
Proof.
  revert x. induction t as [|y t IH]; intros x; simpl.
  - exists x. split; [now left | reflexivity].
  - destruct (IH (Qmax x y)) as (e & [He|He] & Heq).
    + subst e. destruct (Q.max_spec x y) as [[_ Hm]|[_ Hm]].
      * exists y. split; [right; now left|]. now rewrite Heq.
      * exists x. split; [now left|]. now rewrite Heq.
    + exists e. split; [right; now right | assumption].
Qed.

Lemma np_max_spec (a : list Q) (m : Q) :
  np_max a = Ok m ->
  (forall y, In y a -> y <= m) /\ exists e, In e a /\ m == e.
Proof.
  destruct a as [|x t]; [discriminate|]. intros [= <-]. split.
  - intros y [<-|Hy]; [apply fold_Qmax_ge_init | now apply fold_Qmax_ge_elem].
  - apply fold_Qmax_attained.
Qed.

Lemma deviations_lookup (a b : list Q) (i : nat) (d : Q) :
  np_abs (zip_with Qminus a b) !! i = Some d <->
  exists x y, a !! i = Some x /\ b !! i = Some y /\ d = Qabs (x - y).
Proof.
  unfold np_abs. change (map Qabs ?l) with (Qabs <$> l).
  rewrite list_lookup_fmap, lookup_zip_with. split.
  - destruct (a !! i) as [x|]; [|discriminate]. simpl.
    destruct (b !! i) as [y|]; [|discriminate]. simpl.
    intros [= <-]. eauto.
  - intros (x & y & -> & Hy & ->). simpl. now rewrite Hy.
Qed.

(** X13: for a candidate with as many delivered metersets as template
    metersets, and at least one, the maximum deviation is within a
    tolerance exactly when every beam's delivered meterset is within that
    tolerance of its template meterset. *)
Theorem maximum_deviation_within (dicom_metersets delivery_data_metersets : list Q)
    (meterset_tol : Q) :
  length dicom_metersets = length delivery_data_metersets ->
  dicom_metersets <> [] ->
  exists m,
    maximum_deviation dicom_metersets delivery_data_metersets = Ok m /\
    (m <= meterset_tol <->
     forall i x y,
       dicom_metersets !! i = Some x ->
       delivery_data_metersets !! i = Some y ->
       Qabs (x - y) <= meterset_tol).
Proof.
  intros Hlen Hne. unfold maximum_deviation, np_sub.
  rewrite Hlen, Nat.eqb_refl, bind_Ok.
  destruct (np_max (np_abs (zip_with Qminus dicom_metersets
                              delivery_data_metersets))) as [m|e] eqn:Hm.
  - exists m. split; [reflexivity|].
    destruct (np_max_spec _ _ Hm) as [Hge (e & He & Hme)]. split.
    + intros Hle i x y Hx Hy. eapply Qle_trans; [|exact Hle].
      apply Hge. apply list_elem_of_In.
      eapply list_elem_of_lookup_2. apply deviations_lookup. eauto.
    + intros Hall. rewrite Hme.
      apply list_elem_of_In, list_elem_of_lookup in He as (i & Hi).
      apply deviations_lookup in Hi as (x & y & Hx & Hy & ->). eauto.
  - exfalso. destruct dicom_metersets as [|x a]; [congruence|].
    destruct delivery_data_metersets as [|y b]; [discriminate Hlen|].
    discriminate Hm.
Qed.

Lemma maximum_deviation_within_witness :
  exists m,
    maximum_deviation [250; 80] [250.3; 80.2] = Ok m /\ m <= 0.5.
Proof.
  destruct (maximum_deviation_within [250; 80] [250.3; 80.2] 0.5)
    as (m & Hrun & Hiff); [reflexivity | discriminate |].
  exists m. split; [exact Hrun|]. apply Hiff.
  intros [|[|i]] x y Hx Hy; simpl in Hx, Hy; inversion Hx; inversion Hy; subst;
    vm_compute; discriminate.
Defined.

(** X14: metersets in different numbers, neither of them a single one,
    cannot be subtracted: the maximum deviation raises numpy's broadcasting
    error. *)
Theorem maximum_deviation_shape_mismatch
    (dicom_metersets delivery_data_metersets : list Q) :
  length dicom_metersets <> length delivery_data_metersets ->
  length dicom_metersets <> 1%nat ->
  length delivery_data_metersets <> 1%nat ->
  maximum_deviation dicom_metersets delivery_data_metersets
  = Raise (ValueError msg_broadcast).
Proof.
  intros Hne Ha Hb. unfold maximum_deviation, np_sub.
  apply Nat.eqb_neq in Hne. rewrite Hne.
  destruct dicom_metersets as [|x [|x' a]];
    destruct delivery_data_metersets as [|y [|y' b]];
    simpl in *; try congruence; reflexivity.
Qed.

Lemma maximum_deviation_shape_mismatch_witness :
  maximum_deviation [100; 120; 90] [100; 120] = Raise (ValueError msg_broadcast).
Proof.
  apply maximum_deviation_shape_mismatch; simpl; lia.
Defined.

(** ** What the resolver can return *)

Lemma select_within_tolerance_Ok (nums : list Z) (devs : list Q) (tol : Q)
    (v : pyvalue) :
  select_within_tolerance nums devs tol = Ok v ->
  exists n, v = PyIntArray [n] /\ In n nums.
Proof.
  unfold select_within_tolerance. cbv zeta.
  destruct (np_sum_bool (map (fun d => Qle_bool d tol) devs) <? 1)%nat eqn:H0;
    [discriminate|].
  destruct (1 <? np_sum_bool (map (fun d => Qle_bool d tol) devs))%nat eqn:H1;
    [discriminate|].
  apply Nat.ltb_ge in H0, H1. unfold mask_select.
  destruct (length (map (fun d => Qle_bool d tol) devs) =? length nums)%nat
    eqn:Hlen; [|discriminate].
  apply Nat.eqb_eq in Hlen. rewrite length_map in Hlen.
  destruct (selection_mask (fun d => Qle_bool d tol) nums devs Hlen)
    as [Hsum Hsel].
  rewrite bind_Ok, Hsel. intros [= <-].
  rewrite Hsum in H0, H1.
  set (acc := filter (fun p : Z * Q => Qle_bool (snd p) tol = true)
                     (zip nums devs)) in *.
  destruct acc as [|[n d] [|q acc']] eqn:Hacc; simpl in H0, H1; try lia.
  exists n. split; [reflexivity|].
  assert (Hin : (n, d) ∈ filter (fun p : Z * Q => Qle_bool (snd p) tol = true)
                                (zip nums devs)).
  { fold acc. rewrite Hacc. apply list_elem_of_here. }
  apply list_elem_of_filter in Hin as [_ Hin].
  apply list_elem_of_In. eapply elem_of_zip_l, Hin.
Qed.

(** X15: whatever [determine_fraction_group_number] returns names a
    fraction group of the template: the number of the only group, or a
    one-element array holding the number of one of several groups. *)
Theorem determine_fraction_group_number_names_a_group `{Externals} (h : heap)
    (dd : DeliveryDataBase) (tpl : Dataset) (gantry_tol : option Q)
    (meterset_tol : Q) (v : pyvalue) :
  determine_fraction_group_number h dd tpl gantry_tol meterset_tol = Ok v ->
  exists n,
    In n (FractionGroupNumbers tpl) /\
    ((v = PyInt n /\ FractionGroupNumbers tpl = [n]) \/
     (v = PyIntArray [n] /\ length (FractionGroupNumbers tpl) <> 1%nat)).
Proof.
  intros Hrun.
  destruct (Nat.eq_dec (length (FractionGroupNumbers tpl)) 1%nat) as [Hone|Hmany].
  - unfold determine_fraction_group_number in Hrun.
    destruct (FractionGroupNumbers tpl) as [|n [|n' l]];
      simpl in Hone; try lia.
    inversion Hrun. exists n. split; [now left | now left].
  - rewrite (determine_several_groups h dd tpl gantry_tol meterset_tol Hmany)
      in Hrun.
    apply bind_Ok_inv in Hrun as (devs & _ & Hsel).
    apply select_within_tolerance_Ok in Hsel as (n & -> & Hin).
    exists n. split; [exact Hin | now right].
Qed.

Lemma determine_fraction_group_number_names_a_group_witness :
  exists n,
    In n [1%Z; 2%Z] /\
    ((PyIntArray [2%Z] = PyInt n /\ [1%Z; 2%Z] = [n]) \/
     (PyIntArray [2%Z] = PyIntArray [n] /\ 2%nat <> 1%nat)).
Proof.
  apply (determine_fraction_group_number_names_a_group (H := Plan.externals)
           Plan.empty_heap Plan.delivered Plan.overlapping_template None 0.5
           (PyIntArray [2%Z])).
  vm_compute. reflexivity.
Defined.

(** X16: on a template without fraction groups,
    [determine_fraction_group_number] raises the not-found error, whatever
    the delivery and the tolerances. *)
Theorem determine_fraction_group_number_no_groups `{Externals} (h : heap)
    (dd : DeliveryDataBase) (tpl : Dataset) (gantry_tol : option Q)
    (meterset_tol : Q) :
  FractionGroupNumbers tpl = [] ->
  determine_fraction_group_number h dd tpl gantry_tol meterset_tol
  = Raise (ValueError msg_not_found).
Proof.
  intros Hnone. unfold determine_fraction_group_number. rewrite Hnone.
  reflexivity.
Qed.

Lemma determine_fraction_group_number_no_groups_witness :
  determine_fraction_group_number (H0 := Plan.externals) Plan.empty_heap
    Plan.delivered [] None 0.5
  = Raise (ValueError msg_not_found).
Proof.
  apply (determine_fraction_group_number_no_groups (H := Plan.externals)).
  reflexivity.
Defined.

(** ** Templates with fewer than two gantry angles *)

Lemma gantry_tol_raises_short (gantry_angles : list Q) :
  (length gantry_angles < 2)%nat ->
  gantry_tol_from_gantry_angles gantry_angles
  = Raise (ValueError msg_zero_size_min).
Proof.
  destruct gantry_angles as [|x [|y l]]; simpl; intros Hlen;
    [reflexivity | reflexivity | lia].
Qed.

(** X17: when the fraction group handed to [delivery_data_to_dicom] has
    fewer than two gantry angles, the call fails with numpy's empty-minimum
    error, before any masking or conversion. *)
Theorem delivery_data_to_dicom_needs_two_angles `{Repr} `{Externals}
    (h : heap) (dd dd' : DeliveryDataBase) (tpl single : Dataset)
    (fraction_group_number : pyvalue) (angles : list Q) :
  convert_to_one_fraction_group tpl fraction_group_number = Ok single ->
  filter_out_irrelevant_control_points h dd = Ok dd' ->
  get_gantry_angles_from_dicom single = Ok angles ->
  (length angles < 2)%nat ->
  delivery_data_to_dicom h dd tpl fraction_group_number
  = Raise (ValueError msg_zero_size_min).
Proof.
  intros Hsingle Hfilter Hangles Hshort. unfold delivery_data_to_dicom.
  rewrite Hsingle, bind_Ok, Hfilter, bind_Ok, Hangles, bind_Ok.
  now rewrite (gantry_tol_raises_short angles Hshort).
Qed.

Lemma delivery_data_to_dicom_needs_two_angles_witness :
  delivery_data_to_dicom (H := Plan.repr) (H0 := Plan.externals)
    Plan.empty_heap Plan.delivered
    [ {| Plan.fg_number := 7; Plan.fg_beams := [Plan.plain_beam (-120) 250] |} ]
    (PyInt 7)
  = Raise (ValueError msg_zero_size_min).
Proof.
  eapply (delivery_data_to_dicom_needs_two_angles (H := Plan.repr)
            (H0 := Plan.externals)).
  - reflexivity.
  - reflexivity.
  - reflexivity.
  - simpl. lia.
Defined.

(** X18: without an explicit gantry tolerance, the resolution over several
    fraction groups can only return a value when every fraction group has
    at least two gantry angles. *)
Theorem determine_fraction_group_number_needs_two_angles `{Externals}
    (h : heap) (dd : DeliveryDataBase) (tpl : Dataset) (meterset_tol : Q)
    (v : pyvalue) (i : nat) (n : Z) (single : Dataset) (angles : list Q) :
  length (FractionGroupNumbers tpl) <> 1%nat ->
  determine_fraction_group_number h dd tpl None meterset_tol = Ok v ->
  FractionGroupNumbers tpl !! i = Some n ->
  convert_to_one_fraction_group tpl (PyInt n) = Ok single ->
  get_gantry_angles_from_dicom single = Ok angles ->
  (2 <= length angles)%nat.
Proof.
  intros Hseveral Hrun Hn Hsingle Hangles.
  rewrite (determine_several_groups h dd tpl None meterset_tol Hseveral) in Hrun.
  apply bind_Ok_inv in Hrun as (devs & Hrun & _).
  unfold maximum_deviations in Hrun.
  apply bind_Ok_inv in Hrun as (dm & Hdm & Hrun).
  apply bind_Ok_inv in Hrun as (split & Hsplit & Hrun).
  apply bind_Ok_inv in Hrun as (angs & Hangs & Hrun).
  apply bind_Ok_inv in Hrun as (tols & Htols & _).
  destruct (mapM_Ok_lookup _ _ _ _ _ Hsplit Hn) as (s & Hs & Hs').
  assert (s = single) by congruence. subst s.
  destruct (mapM_Ok_lookup _ _ _ _ _ Hangs Hs) as (a & Ha & Ha').
  assert (a = angles) by congruence. subst a.
  destruct (mapM_Ok_lookup _ _ _ _ _ Htols Ha) as (t & _ & Ht).
  simpl in Ht.
  destruct (Nat.lt_ge_cases (length angles) 2) as [Hshort|Hok]; [|exact Hok].
  rewrite (gantry_tol_raises_short angles Hshort) in Ht. discriminate.
Qed.

Lemma determine_fraction_group_number_needs_two_angles_witness :
  le 2%nat (length [-120; -30]).
Proof.
  apply (determine_fraction_group_number_needs_two_angles
           (H := Plan.externals) Plan.empty_heap Plan.delivered
           Plan.overlapping_template 0.5 (PyIntArray [2%Z]) 1%nat 2%Z
           [ {| Plan.fg_number := 2;
                Plan.fg_beams := [Plan.plain_beam (-120) 250;
                                  Plan.plain_beam (-30) 80] |} ]
           [-120; -30]).
  - simpl. lia.
  - vm_compute. reflexivity.
  - reflexivity.
  - reflexivity.
  - reflexivity.
Defined.

(** ** The conversion of one delivery and of one beam *)

Lemma mapM_Raise_kind {A B : Type} (f : A -> result B) (P : exn -> Prop)
    (l : list A) (e : exn) :
  (forall x e', f x = Raise e' -> P e') -> mapM f l = Raise e -> P e.
Proof.
  intros Hf. induction l as [|x l IH]; [discriminate|].
  rewrite mapM_cons. destruct (f x) as [y|e'] eqn:Hx.
  - rewrite bind_Ok. destruct (mapM f l) as [k|e''] eqn:Hl; [discriminate|].
    intros [= <-]. now apply IH.
  - intros [= <-]. eapply Hf, Hx.
Qed.

Lemma np_set_col_raise_kind {X : Type} (j : nat) (m : list (list X))
    (v : list X) (e : exn) :
  length v = length m ->
  np_set_col j m v = Raise e -> e = IndexError msg_out_of_bounds.
Proof.
  intros Hlen. unfold np_set_col. rewrite Hlen, Nat.eqb_refl.
  apply (mapM_Raise_kind _ (fun e => e = IndexError msg_out_of_bounds)).
  intros p e'.
  destruct (j <? length (fst p))%nat; [discriminate | now intros [= <-]].
Qed.

Lemma np_col_length {X : Type} (j : nat) (m : list (list X)) (v : list X) :
  np_col j m = Ok v -> length v = length m.
Proof. apply mapM_Ok_length. Qed.

Lemma np_set_col_length {X : Type} (j : nat) (m m' : list (list X)) (v : list X) :
  np_set_col j m v = Ok m' -> length m' = length m.
Proof.
  unfold np_set_col. destruct (length v =? length m)%nat eqn:Hlen;
    [|discriminate].
  apply Nat.eqb_eq in Hlen. intros Hrun. apply mapM_Ok_length in Hrun.
  rewrite length_zip_with in Hrun. lia.
Qed.

Lemma negate_second_raise_kind (jaw : list (list Q)) (e : exn) :
  negate_second jaw = Raise e -> e = IndexError msg_out_of_bounds.
Proof.
  unfold negate_second. destruct (np_col 1 jaw) as [c1|e1] eqn:H1.
  - rewrite bind_Ok. apply np_set_col_raise_kind.
    rewrite length_map. exact (np_col_length _ _ _ H1).
  - intros [= <-]. exact (np_col_raise_kind _ _ _ H1).
Qed.

Lemma swap_columns_raise_kind {X : Type} (s : list (list X)) (e : exn) :
  swap_columns s = Raise e -> e = IndexError msg_out_of_bounds.
Proof.
  unfold swap_columns. destruct (np_col 0 s) as [c0|e0] eqn:H0;
    [|intros [= <-]; exact (np_col_raise_kind _ _ _ H0)].
  rewrite bind_Ok. destruct (np_set_col 1 s c0) as [conv|e1] eqn:H1;
    [|intros [= <-];
      exact (np_set_col_raise_kind _ _ _ _ (np_col_length _ _ _ H0) H1)].
  rewrite bind_Ok. destruct (np_col 1 s) as [c1|e2] eqn:H2;
    [|intros [= <-]; exact (np_col_raise_kind _ _ _ H2)].
  rewrite bind_Ok. apply np_set_col_raise_kind.
  rewrite (np_col_length _ _ _ H2). symmetry.
  exact (np_set_col_length _ _ _ _ H1).
Qed.

Lemma jaw_dd2dcm_raise_kind `{Repr} (h : gmap loc (list (list Q)))
    (jaw : array_like (list (list Q))) (e : exn) :
  jaw_dd2dcm h jaw = Raise e -> exists msg, e = IndexError msg.
Proof.
  assert (Hbody : forall r,
    (negated ← negate_second (read h r);
     let '(h0, jaw0) := write h r negated in
     converted_jaw ← swap_columns (map (map str) (read h0 jaw0));
     Ok (h0, converted_jaw)) = Raise e -> exists msg, e = IndexError msg).
  { intros r. destruct (negate_second (read h r)) as [negated|e1] eqn:Hn.
    - rewrite bind_Ok. destruct (write h r negated) as [h0 jaw0].
      destruct (swap_columns (map (map str) (read h0 jaw0))) as [c|e2] eqn:Hs;
        [discriminate|].
      intros [= <-]. eexists. exact (swap_columns_raise_kind _ _ Hs).
    - intros [= <-]. eexists. exact (negate_second_raise_kind _ _ Hn). }
  unfold jaw_dd2dcm. destruct jaw as [[|row rows]|l];
    [intros [= <-]; eauto | apply Hbody | apply Hbody].
Qed.

Lemma mlc_dd2dcm_raise_kind `{Repr} (h : gmap loc (list (list (list Q))))
    (mlc : array_like (list (list (list Q)))) (e : exn) :
  mlc_dd2dcm h mlc = Raise e -> e = IndexError msg_out_of_bounds.
Proof.
  unfold mlc_dd2dcm. cbv zeta.
  destruct (mapM _ (read h (np_array false h mlc))) as [out|e'] eqn:Hm;
    [discriminate|].
  intros [= <-]. revert Hm.
  apply (mapM_Raise_kind _ (fun e => e = IndexError msg_out_of_bounds)).
  intros cp e''.
  destruct (mlc_control_point cp) as [c|e3] eqn:Hc; [discriminate|].
  intros [= <-]. exact (mlc_control_point_raise_kind _ _ Hc).
Qed.

Lemma angle_dd2dcm_frame_others `{Repr} (h h' : gmap loc (list Q))
    (angle : array_like (list Q)) (out : list string * list string) (l : loc) :
  angle_dd2dcm h angle = Ok (h', out) -> angle <> NdArray l ->
  h' !! l = h !! l.
Proof.
  intros Hrun Hl. pose proof (angle_dd2dcm_Ok_nonempty _ _ _ _ Hrun) as Hne.
  rewrite (angle_dd2dcm_value h angle Hne) in Hrun.
  inversion Hrun as [[Hh Hout]]. destruct angle as [a|l0]; [reflexivity|].
  apply lookup_insert_ne. congruence.
Qed.

(** X19: a successful [coordinate_convert_delivery_data] hands the monitor
    units on as they came, leaves every jaw and MLC array of the caller as
    it was, and changes no angle array other than the gantry and collimator
    arrays it was given. *)
Theorem coordinate_convert_delivery_data_frame `{Repr} (h h' : heap)
    (dd : DeliveryDataBase) (c : converted) :
  coordinate_convert_delivery_data h dd = Ok (h', c) ->
  c_monitor_units c = monitor_units dd /\
  arr2 h' = arr2 h /\
  arr3 h' = arr3 h /\
  (forall l, gantry dd <> NdArray l -> collimator dd <> NdArray l ->
             arr1 h' !! l = arr1 h !! l).
Proof.
  unfold coordinate_convert_delivery_data. cbv zeta. intros Hrun.
  apply bind_Ok_inv in Hrun as ([m3 mlc'] & Hmlc & Hrun).
  apply bind_Ok_inv in Hrun as ([m2 jaw'] & Hjaw & Hrun).
  apply bind_Ok_inv in Hrun as ([m1 [ga gm]] & Hg & Hrun).
  apply bind_Ok_inv in Hrun as ([m1' [ca cm]] & Hc & Hrun).
  inversion Hrun; subst; clear Hrun. simpl in *.
  apply mlc_dd2dcm_frame in Hmlc. apply jaw_dd2dcm_frame in Hjaw.
  subst. repeat split; try reflexivity.
  intros l Hgl Hcl.
  rewrite (angle_dd2dcm_frame_others _ _ _ _ l Hc Hcl).
  exact (angle_dd2dcm_frame_others _ _ _ _ l Hg Hgl).
Qed.

Lemma coordinate_convert_delivery_data_frame_witness :
  exists h' c,
    coordinate_convert_delivery_data (H := Plan.repr)
      {| arr1 := {[ 1%positive := [-10; 10] ]};
         arr2 := {[ 1%positive := [[10; 20]; [10; 20]] ]};
         arr3 := ∅ |}
      {| monitor_units := PyList [0; 50];
         mlc := PyList [[[1; 2]]; [[1; 2]]];
         jaw := NdArray 1%positive;
         gantry := NdArray 1%positive;
         collimator := PyList [0; 0] |}
    = Ok (h', c) /\
    c_monitor_units c = PyList [0; 50] /\
    arr2 h' = {[ 1%positive := [[10; 20]; [10; 20]] ]} /\
    arr1 h' !! 1%positive = Some [350; 10].
Proof.
  set (h := {| arr1 := {[ 1%positive := [-10; 10] ]};
               arr2 := {[ 1%positive := [[10; 20]; [10; 20]] ]};
               arr3 := ∅ |}).
  set (dd := {| monitor_units := PyList [0; 50];
                mlc := PyList [[[1; 2]]; [[1; 2]]];
                jaw := NdArray 1%positive;
                gantry := NdArray 1%positive;
                collimator := PyList [0; 0] |}).
  destruct (coordinate_convert_delivery_data (H := Plan.repr) h dd)
    as [[h' c]|e] eqn:Hrun; [|vm_compute in Hrun; discriminate].
  exists h', c. split; [reflexivity|].
  destruct (coordinate_convert_delivery_data_frame (H := Plan.repr)
              h h' dd c Hrun) as (Hmu & H2 & _ & _).
  split; [exact Hmu|]. split; [exact H2|].
  vm_compute in Hrun. inversion Hrun. reflexivity.
Defined.

(** X20: a delivery without gantry samples cannot be converted:
    [delivery_data_to_dicom_single_beam] raises [IndexError] on it, for
    every template and beam index. *)
Theorem delivery_data_to_dicom_single_beam_no_samples `{Repr} `{Externals}
    (h : heap) (dd : DeliveryDataBase) (tpl : Dataset)
    (beam_index fraction_group_index : nat) :
  contents (arr1 h) (gantry dd) = [] ->
  exists msg,
    delivery_data_to_dicom_single_beam h dd tpl beam_index fraction_group_index
    = Raise (IndexError msg).
Proof.
  intros Hempty.
  assert (Hconv : exists msg,
             coordinate_convert_delivery_data h dd = Raise (IndexError msg)).
  { unfold coordinate_convert_delivery_data. cbv zeta.
    destruct (mlc_dd2dcm (arr3 h) (mlc dd)) as [[m3 mlc']|e] eqn:Hmlc.
    - rewrite bind_Ok.
      destruct (jaw_dd2dcm (arr2 (set_arr3 h m3)) (jaw dd))
        as [[m2 jaw']|e] eqn:Hjaw.
      + rewrite bind_Ok. simpl arr1.
        assert (Hg : angle_dd2dcm (arr1 h) (gantry dd)
                     = Raise (IndexError msg_bool_index)).
        { unfold angle_dd2dcm. rewrite Hempty. reflexivity. }
        rewrite Hg. eexists. reflexivity.
      + destruct (jaw_dd2dcm_raise_kind _ _ _ Hjaw) as (msg & ->).
        eexists. reflexivity.
    - rewrite (mlc_dd2dcm_raise_kind _ _ _ Hmlc). eexists. reflexivity. }
  destruct Hconv as (msg & Hconv). exists msg.
  unfold delivery_data_to_dicom_single_beam. cbv zeta. now rewrite Hconv.
Qed.

Lemma delivery_data_to_dicom_single_beam_no_samples_witness :
  exists msg,
    delivery_data_to_dicom_single_beam (H := Plan.repr) (H0 := Plan.externals)
      Plan.empty_heap Plan.empty Plan.single_template 0 0
    = Raise (IndexError msg).
Proof.
  apply (delivery_data_to_dicom_single_beam_no_samples (H := Plan.repr)
           (H0 := Plan.externals)).
  reflexivity.
Defined.

(** X21: once the delivery is converted,
    [delivery_data_to_dicom_single_beam] raises [IndexError] when the beam
    index lies outside the template's beam sequence, and when the beam at
    that index has no control points. *)
Theorem delivery_data_to_dicom_single_beam_index `{Repr} `{Externals}
    (h h' : heap) (dd : DeliveryDataBase) (c : converted) (tpl : Dataset)
    (beam_index fraction_group_index : nat) :
  coordinate_convert_delivery_data h dd = Ok (h', c) ->
  (BeamSequence tpl !! beam_index = None \/
   exists beam, BeamSequence tpl !! beam_index = Some beam /\
                ControlPointSequence beam = []) ->
  delivery_data_to_dicom_single_beam h dd tpl beam_index fraction_group_index
  = Raise (IndexError msg_list_index).
Proof.
  intros Hconv Hbeam. unfold delivery_data_to_dicom_single_beam. cbv zeta.
  rewrite Hconv, bind_Ok. cbv beta iota. unfold py_index.
  destruct Hbeam as [Hnone|(beam & Hsome & Hcps)].
  - now rewrite Hnone.
  - rewrite Hsome, bind_Ok, Hcps. reflexivity.
Qed.

Lemma delivery_data_to_dicom_single_beam_index_witness :
  delivery_data_to_dicom_single_beam (H := Plan.repr) (H0 := Plan.externals)
    Plan.empty_heap Plan.delivered Plan.single_template 2 0
  = Raise (IndexError msg_list_index).
Proof.
  eapply (delivery_data_to_dicom_single_beam_index (H := Plan.repr)
            (H0 := Plan.externals)).
  - vm_compute. reflexivity.
  - left. reflexivity.
Defined.

(** X22: when the loop over the masked deliveries succeeds it has built one
    document per masked delivery, in order, the document at position [j]
    from the delivery at position [j] with beam index [j] counted from the
    start index. *)
Theorem single_beam_loop_fragments `{Repr} `{Externals} (h h' : heap)
    (tpl : Dataset) (fraction_group_index start : nat)
    (all_masked : list DeliveryDataBase) (fragments : list Dataset) :
  single_beam_loop h tpl fraction_group_index start all_masked
  = Ok (h', fragments) ->
  length fragments = length all_masked /\
  forall j masked,
    all_masked !! j = Some masked ->
    exists hj hj' d,
      fragments !! j = Some d /\
      delivery_data_to_dicom_single_beam hj masked tpl (start + j)
        fraction_group_index = Ok (hj', d).
Proof.
  revert h h' start fragments.
  induction all_masked as [|m rest IH]; intros h h' start fragments Hrun.
  - inversion Hrun. split; [reflexivity|]. intros j masked Hj. discriminate.
  - simpl in Hrun.
    apply bind_Ok_inv in Hrun as ([h1 d] & Hd & Hrun).
    apply bind_Ok_inv in Hrun as ([h2 ds] & Hds & Hrun).
    inversion Hrun; subst; clear Hrun.
    destruct (IH _ _ _ _ Hds) as [Hlen Hall]. split; [simpl; now rewrite Hlen|].
    intros [|j] masked Hj; simpl in Hj.
    + inversion Hj; subst. exists h, h1, d. split; [reflexivity|].
      now rewrite Nat.add_0_r.
    + destruct (Hall j masked Hj) as (hj & hj' & d' & Hd' & Hrun').
      exists hj, hj', d'. split; [exact Hd'|].
      now rewrite Nat.add_succ_r.
Qed.

Lemma single_beam_loop_fragments_witness :
  exists h' fragments,
    single_beam_loop (H := Plan.repr) (H0 := Plan.externals) Plan.empty_heap
      Plan.single_template 0 0 [Plan.delivered; Plan.delivered]
    = Ok (h', fragments) /\
    length fragments = 2%nat.
Proof.
  destruct (single_beam_loop (H := Plan.repr) (H0 := Plan.externals)
              Plan.empty_heap Plan.single_template 0 0
              [Plan.delivered; Plan.delivered])
    as [[h' fragments]|e] eqn:Hrun; [|vm_compute in Hrun; discriminate].
  exists h', fragments. split; [reflexivity|].
  exact (proj1 (single_beam_loop_fragments (H := Plan.repr)
                  (H0 := Plan.externals) _ _ _ _ _ _ _ Hrun)).
Defined.
